(** * simple-mongo-proxy: the connection lifecycle and the request handlers

    A shallow embedding of the Express server of [src/unnamed/part_000]
    (the proxy with the [/health] and [/diagnose] probes) and of its earlier
    form [src/server.js].  The two files share [connectToMongo], the startup
    check, the listen callback and the SIGINT handler word for word; they
    differ in the handlers.

    The MongoDB driver and the clock are external: they are a record of
    oracles ([Driver]) that answer each call from the history of the process,
    so every theorem holds for every driver behaviour.  A handler runs from
    its first line to its response; the event loop delivers requests and
    signals one after the other. *)

From Stdlib Require Import String Ascii List ZArith Lia Bool.
Import ListNotations.
Open Scope string_scope.
Set Warnings "-register-all".

(** ** JavaScript values *)

Inductive jsval : Type :=
| JUndef
| JNull
| JBool (b : bool)
| JNum (n : Z)
| JStr (s : string)
| JArr (l : list jsval)
| JObj (fields : list (string * jsval))
| JFun (name : string).

(** [if (v)], [!v], [a || b]: the falsy values are undefined, null, false,
    0 and the empty string.  Numbers are integers here; a fractional number
    is truthy like any other non-zero number. *)
Definition truthy (v : jsval) : bool :=
  match v with
  | JUndef | JNull => false
  | JBool b => b
  | JNum n => negb (n =? 0)%Z
  | JStr s => negb (s =? "")
  | JArr _ | JObj _ | JFun _ => true
  end.

Definition js_or (a b : jsval) : jsval := if truthy a then a else b.

Fixpoint assoc (k : string) (l : list (string * jsval)) : option jsval :=
  match l with
  | [] => None
  | (k', v) :: l' => if k =? k' then Some v else assoc k l'
  end.

(** [o[k] = v] on an object: an existing key keeps its place. *)
Fixpoint assoc_set (k : string) (v : jsval) (l : list (string * jsval))
  : list (string * jsval) :=
  match l with
  | [] => [(k, v)]
  | (k', v') :: l' =>
      if k =? k' then (k, v) :: l' else (k', v') :: assoc_set k v l'
  end.

Definition keys (v : jsval) : list string :=
  match v with
  | JObj l => map fst l
  | _ => []
  end.

(** [v.k] on a value that is neither null nor undefined.  Of the names this
    program reads, the prototypes only supply [length] (arrays, strings) and
    [sort] (arrays). *)
Definition get_prop (v : jsval) (k : string) : jsval :=
  match v with
  | JObj l => match assoc k l with Some x => x | None => JUndef end
  | JArr l =>
      if k =? "length" then JNum (Z.of_nat (List.length l))
      else if k =? "sort" then JFun "Array.prototype.sort"
      else JUndef
  | JStr s =>
      if k =? "length" then JNum (Z.of_nat (String.length s)) else JUndef
  | _ => JUndef
  end.

Definition set_prop (o : jsval) (k : string) (v : jsval) : jsval :=
  match o with
  | JObj l => JObj (assoc_set k v l)
  | _ => o
  end.

Definition nullish (v : jsval) : bool :=
  match v with
  | JUndef | JNull => true
  | _ => false
  end.

(** [String.prototype.split] with a one-character separator. *)
Fixpoint split_acc (sep : ascii) (cur : string) (s : string) : list string :=
  match s with
  | EmptyString => [cur]
  | String c s' =>
      if Ascii.eqb c sep then cur :: split_acc sep "" s'
      else split_acc sep (cur ++ String c "") s'
  end.

Definition split (sep : ascii) (s : string) : list string :=
  split_acc sep "" s.

(** ** Errors *)

(** Everything this program throws or catches is an [Error] object: the
    driver's errors and the [TypeError] of a property read on null or
    undefined.  [code] is undefined on errors without one. *)
Record exn : Type := mkExn {
  ename : string;
  message : string;
  code : jsval
}.

Definition TypeError (msg : string) : exn := mkExn "TypeError" msg JUndef.

Definition show_nullish (v : jsval) : string :=
  match v with
  | JNull => "null"
  | _ => "undefined"
  end.

Definition read_of_nullish (v : jsval) (k : string) : exn :=
  TypeError ("Cannot read properties of " ++ show_nullish v
             ++ " (reading '" ++ k ++ "')").

Definition destructure_of_nullish (v : jsval) (k : string) : exn :=
  TypeError ("Cannot destructure property '" ++ k ++ "' of 'req.body' as it is "
             ++ show_nullish v ++ ".").

Inductive result (A : Type) : Type :=
| Ok (a : A)
| Raise (e : exn).
Arguments Ok {A} a.
Arguments Raise {A} e.

(** ** The driver, the trace and the process state *)

(** A cursor as [toArray] finds it: the filter of [find] and the modifiers
    that were called on it.  A driver that rejects a modifier's argument is
    an oracle that fails the cursor. *)
Record cursor : Type := mkCursor {
  cur_filter : jsval;
  cur_sort : option jsval;
  cur_skip : option jsval;
  cur_limit : option jsval
}.

Definition find (query : jsval) : cursor := mkCursor query None None None.
Definition cursor_sort (c : cursor) (v : jsval) : cursor :=
  mkCursor (cur_filter c) (Some v) (cur_skip c) (cur_limit c).
Definition cursor_skip (c : cursor) (v : jsval) : cursor :=
  mkCursor (cur_filter c) (cur_sort c) (Some v) (cur_limit c).
Definition cursor_limit (c : cursor) (v : jsval) : cursor :=
  mkCursor (cur_filter c) (cur_sort c) (cur_skip c) (Some v).

(** The driver primitives the handlers await, with their arguments. *)
Inductive op : Type :=
| OpPing
| OpListCollections
| OpCountDocuments (coll query : jsval)
| OpFindOne (coll : jsval)
| OpToArray (coll : jsval) (c : cursor)
| OpAggregate (coll pipeline : jsval)
| OpDistinct (coll field query : jsval)
| OpInsertOne (coll document : jsval)
| OpInsertMany (coll documents : jsval).

Inductive level : Type := Log | Error.

(** What the process does to the outside, with the outcome of each call
    into the driver; newest first in the trace. *)
Inductive event : Type :=
| EConsole (l : level) (text : string) (args : list jsval)
| ENewClient (uri : option string) (thrown : option exn)
| EConnect (client : nat) (rejected : option exn)
| EDb (client : nat) (name : string) (thrown : option exn)
| EOp (o : op) (outcome : result jsval)
| EClose (client : nat) (rejected : option exn)
| EListen (port : jsval)
| EExit (exit_code : Z).

Definition trace := list event.

Record Driver : Type := mkDriver {
  new_throws : option string -> option exn;  (* new MongoClient(uri) *)
  connect_rejects : trace -> option exn;     (* await client.connect() *)
  db_throws : string -> option exn;          (* client.db(name) *)
  run_op : trace -> op -> result jsval;      (* every other awaited call *)
  close_rejects : trace -> option exn;       (* await client.close() *)
  toISOString : trace -> string;             (* new Date().toISOString() *)
  process_version : string
}.

(** [const PORT], [const MONGODB_URI], [const DATABASE].  A variable of
    [process.env] is a string or undefined ([None]). *)
Record config : Type := mkConfig {
  PORT : jsval;
  MONGODB_URI : option string;
  DATABASE : string
}.

Definition env_val (v : option string) : jsval :=
  match v with
  | Some x => JStr x
  | None => JUndef
  end.

(** [let mongoClient = null; let db = null;] and the trace.  A client is
    named by the number of clients constructed before it. *)
Record state : Type := mkState {
  mongoClient : option nat;
  db : option (nat * string);
  events : trace
}.

Definition initial : state := mkState None None [].

Definition is_new_client (e : event) : bool :=
  match e with ENewClient _ None => true | _ => false end.
Definition is_connect (e : event) : bool :=
  match e with EConnect _ _ => true | _ => false end.
Definition is_close (e : event) : bool :=
  match e with EClose _ _ => true | _ => false end.
Definition is_listen (e : event) : bool :=
  match e with EListen _ => true | _ => false end.

(** The error of a call into the driver that failed. *)
Definition failure_of (e : event) : option exn :=
  match e with
  | ENewClient _ (Some x) => Some x
  | EConnect _ (Some x) => Some x
  | EDb _ _ (Some x) => Some x
  | EOp _ (Raise x) => Some x
  | EClose _ (Some x) => Some x
  | _ => None
  end.

Definition count_events (p : event -> bool) (t : trace) : nat :=
  List.length (filter p t).

(** Clients constructed, [connect()] calls and [close()] calls so far. *)
Definition clients_created (s : state) : nat := count_events is_new_client (events s).
Definition connect_attempts (s : state) : nat := count_events is_connect (events s).
Definition close_calls (s : state) : nat := count_events is_close (events s).

(** ** The monad of handler bodies: state and exceptions *)

Definition M (A : Type) : Type := state -> state * result A.

Definition ret {A} (a : A) : M A := fun s => (s, Ok a).
Definition throw {A} (e : exn) : M A := fun s => (s, Raise e).
Definition bind {A B} (m : M A) (k : A -> M B) : M B :=
  fun s => match m s with
           | (s', Ok a) => k a s'
           | (s', Raise e) => (s', Raise e)
           end.

(** [try { m } catch (error) { h error }] *)
Definition try_catch {A} (m : M A) (h : exn -> M A) : M A :=
  fun s => match m s with
           | (s', Ok a) => (s', Ok a)
           | (s', Raise e) => h e s'
           end.

(** The outcome of a [try] block as a value, for a [catch] that goes on with
    the locals the block had already changed. *)
Definition attempt {A} (m : M A) : M (result A) :=
  fun s => match m s with
           | (s', r) => (s', Ok r)
           end.

Declare Scope js_scope.
Delimit Scope js_scope with js.
Notation "x <- m ;; k" := (bind m (fun x => k))
  (at level 100, m at next level, right associativity) : js_scope.
Notation "m ;; k" := (bind m (fun _ => k))
  (at level 100, right associativity) : js_scope.
Open Scope js_scope.

Definition push (e : event) (s : state) : state :=
  mkState (mongoClient s) (db s) (e :: events s).

Definition get : M state := fun s => (s, Ok s).
Definition emit (e : event) : M unit := fun s => (push e s, Ok tt).
Definition set_mongoClient (c : option nat) : M unit :=
  fun s => (mkState c (db s) (events s), Ok tt).
Definition set_db (d : option (nat * string)) : M unit :=
  fun s => (mkState (mongoClient s) d (events s), Ok tt).

Definition console_log (text : string) (args : list jsval) : M unit :=
  emit (EConsole Log text args).
Definition console_error (text : string) (args : list jsval) : M unit :=
  emit (EConsole Error text args).

(** [v.k], which throws on null and undefined. *)
Definition member (v : jsval) (k : string) : M jsval :=
  if nullish v then throw (read_of_nullish v k) else ret (get_prop v k).

(** [`${v}`] in a template literal converts [v] to a string.  That throws
    for an object that has a property [toString] of its own, which is not
    callable in a parsed body or a document (the inherited [valueOf] then
    gives back the object), and for an array that holds such an object:
    [Array.prototype.toString] joins the strings of the elements, null and
    undefined counting as empty. *)
Fixpoint unprintable (v : jsval) : bool :=
  match v with
  | JObj fields => existsb (fun kv => fst kv =? "toString") fields
  | JArr l =>
      (fix some (l : list jsval) : bool :=
         match l with
         | [] => false
         | x :: l' => unprintable x || some l'
         end) l
  | _ => false
  end.

Definition not_primitive : exn :=
  TypeError "Cannot convert object to primitive value".

Definition interpolated (v : jsval) : M unit :=
  if unprintable v then throw not_primitive else ret tt.

(** An error object printed by [console.error]. *)
Definition shown (e : exn) : jsval :=
  JObj [("name", JStr (ename e)); ("message", JStr (message e)); ("code", code e)].

(** A response as the handler hands it to Express: [res.json(x)] answers
    200, [res.status(n).json(x)] answers [n], and [body] is [x] itself.
    Express writes it with [JSON.stringify], which leaves a field out when
    its value is undefined. *)
Record response : Type := mkResponse {
  status : Z;
  body : jsval
}.

Definition res_json (x : jsval) : M response := ret (mkResponse 200 x).
Definition res_status_json (n : Z) (x : jsval) : M response := ret (mkResponse n x).

(** [const { k, ... } = req.body] throws when the body is null or undefined;
    [k = d] in the pattern takes [d] for an undefined property only. *)
Definition destructure (req_body : jsval) (k : string) : M jsval :=
  if nullish req_body then throw (destructure_of_nullish req_body k)
  else ret req_body.

(** [x !== null], [!!x] and [if (x)] on one of the two handles. *)
Definition not_null {A} (o : option A) : bool :=
  match o with
  | Some _ => true
  | None => false
  end.

Definition or_default (v d : jsval) : jsval :=
  match v with
  | JUndef => d
  | _ => v
  end.

Section Program.

Variable D : Driver.
Variable cfg : config.

(** *** Calls into the driver *)

(** A call whose outcome [r] the driver decides: the outcome goes into the
    trace and the call returns or throws accordingly. *)
Definition outcome_of (r : option exn) : result unit :=
  match r with
  | Some e => Raise e
  | None => Ok tt
  end.

Definition new_MongoClient (uri : option string) : M nat :=
  fun s => let r := new_throws D uri in
           (push (ENewClient uri r) s,
            match r with
            | Some e => Raise e
            | None => Ok (clients_created s)
            end).

Definition client_connect (c : nat) : M unit :=
  fun s => let r := connect_rejects D (events s) in
           (push (EConnect c r) s, outcome_of r).

Definition client_db (c : nat) (name : string) : M (nat * string) :=
  fun s => let r := db_throws D name in
           (push (EDb c name r) s,
            match r with
            | Some e => Raise e
            | None => Ok (c, name)
            end).

Definition client_close (c : nat) : M unit :=
  fun s => let r := close_rejects D (events s) in
           (push (EClose c r) s, outcome_of r).

Definition await_op (o : op) : M jsval :=
  fun s => let r := run_op D (events s) o in
           (push (EOp o r) s, r).

(** [db.k(...)]: a read of property [k] on [db], which is null until a
    connection succeeded. *)
Definition db_dot (k : string) : M (nat * string) :=
  s <- get ;;
  match db s with
  | Some d => ret d
  | None => throw (read_of_nullish JNull k)
  end.

Definition date_now : M string := fun s => (s, Ok (toISOString D (events s))).

(** *** connectToMongo (both files, lines 32-45) *)

Definition connectToMongo : M unit :=
  s <- get ;;
  match mongoClient s with
  | Some _ => ret tt
  | None =>
      try_catch
        (console_log "Connecting to MongoDB..." [] ;;
         c <- new_MongoClient (MONGODB_URI cfg) ;;
         set_mongoClient (Some c) ;;
         client_connect c ;;
         d <- client_db c (DATABASE cfg) ;;
         set_db (Some d) ;;
         console_log "✅ Connected to MongoDB" [])
        (fun error =>
           console_error "❌ MongoDB connection error:" [shown error] ;;
           throw error)
  end.

(** *** The listen callback and the SIGINT handler (both files) *)

(** The line breaks inside the console texts are left out. *)
Definition listen_callback : M unit :=
  console_log "🚀 MongoDB Proxy Server" [] ;;
  console_log "━━━━━━━━━━━━━━━━━━━━━━━━━━━━━━━━━━━━━━━━" [] ;;
  console_log "   Running on: http://localhost:${PORT}" [PORT cfg] ;;
  console_log "   Database: ${DATABASE}" [JStr (DATABASE cfg)] ;;
  console_log "━━━━━━━━━━━━━━━━━━━━━━━━━━━━━━━━━━━━━━━━" [] ;;
  try_catch
    (connectToMongo ;;
     console_log "✅ MongoDB connection verified" [])
    (fun error =>
       console_error "❌ Failed to connect to MongoDB:" [JStr (message error)] ;;
       console_error "   Check your MONGODB_URI" []).

Definition process_exit (n : Z) : M unit := emit (EExit n).

Definition on_SIGINT : M unit :=
  console_log "Shutting down..." [] ;;
  s <- get ;;
  match mongoClient s with
  | Some c =>
      client_close c ;;
      console_log "MongoDB connection closed" []
  | None => ret tt
  end ;;
  process_exit 0.

End Program.

(** ** src/unnamed/part_000: the handlers *)

Module Proxy.
Section Handlers.

Variable D : Driver.
Variable cfg : config.

Definition failed (error : exn) : jsval :=
  JObj [("status", JStr "failed"); ("error", JStr (message error))].

(** [GET /health], lines 48-74.  The [catch] runs on the [health] object as
    the [try] block left it. *)
Definition health_degraded (health : jsval) (error : exn) : jsval :=
  set_prop (set_prop (set_prop health
    "ping" (JStr "failed"))
    "pingError" (JStr (message error)))
    "status" (JStr "degraded").

Definition get_health : M response :=
  s <- get ;;
  now <- date_now D ;;
  let health := JObj [("status", JStr "ok");
                      ("connected", JBool (not_null (db s)));
                      ("database", JStr (DATABASE cfg));
                      ("timestamp", JStr now)] in
  match db s with
  | Some _ =>
      r <- attempt (db_dot "admin" ;; await_op D OpPing) ;;
      match r with
      | Raise error => res_json (health_degraded health error)
      | Ok _ =>
          let health := set_prop health "ping" (JStr "success") in
          r <- attempt (db_dot "collection" ;;
                        await_op D (OpCountDocuments (JStr "network_tests") JUndef)) ;;
          match r with
          | Raise error => res_json (health_degraded health error)
          | Ok count =>
              let health := set_prop health "testCollection" (JStr "accessible") in
              let health := set_prop health "documentCount" count in
              res_json health
          end
      end
  | None => res_json health
  end.

(** [MONGODB_URI ? MONGODB_URI.split('@')[1]?.split('/')[0] : 'not configured'] *)
Definition mongoUriHost (uri : option string) : jsval :=
  if truthy (env_val uri) then
    match uri with
    | Some u =>
        match split "@" u with
        | _ :: after :: _ => JStr (hd "" (split "/" after))
        | _ => JUndef
        end
    | None => JUndef
    end
  else JStr "not configured".

(** [diagnostics.tests.k = v] *)
Definition set_test (diagnostics : jsval) (k : string) (v : jsval) : jsval :=
  set_prop diagnostics "tests" (set_prop (get_prop diagnostics "tests") k v).

(** [collections.map(c => c.name)] *)
Fixpoint map_name (l : list jsval) : M (list jsval) :=
  match l with
  | [] => ret []
  | c :: l' =>
      n <- member c "name" ;;
      ns <- map_name l' ;;
      ret (n :: ns)
  end.

Definition collections_map_name (collections : jsval) : M jsval :=
  match collections with
  | JArr l => ns <- map_name l ;; ret (JArr ns)
  | _ =>
      if nullish collections then throw (read_of_nullish collections "map")
      else throw (TypeError "collections.map is not a function")
  end.

Definition probe (r : result jsval) : jsval :=
  match r with
  | Ok v => v
  | Raise error => failed error
  end.

Definition success : jsval := JObj [("status", JStr "success")].

(** The [try] blocks of tests 2 to 4, each with the value it assigns. *)
Definition test_ping : M jsval :=
  db_dot "admin" ;;
  await_op D OpPing ;;
  ret success.

Definition test_listCollections : M jsval :=
  db_dot "listCollections" ;;
  collections <- await_op D OpListCollections ;;
  count <- member collections "length" ;;
  names <- collections_map_name collections ;;
  ret (JObj [("status", JStr "success");
             ("count", count);
             ("collections", names)]).

Definition test_networkTests : M jsval :=
  db_dot "collection" ;;
  count <- await_op D (OpCountDocuments (JStr "network_tests") JUndef) ;;
  db_dot "collection" ;;
  sample <- await_op D (OpFindOne (JStr "network_tests")) ;;
  ret (JObj [("status", JStr "success");
             ("count", count);
             ("hasSampleData", JBool (truthy sample))]).

(** [GET /diagnose], lines 77-137. *)
Definition get_diagnose : M response :=
  s <- get ;;
  now <- date_now D ;;
  let diagnostics :=
    JObj [("timestamp", JStr now);
          ("environment",
           JObj [("nodeVersion", JStr (process_version D));
                 ("port", PORT cfg);
                 ("database", JStr (DATABASE cfg));
                 ("mongoUriConfigured", JBool (truthy (env_val (MONGODB_URI cfg))));
                 ("mongoUriHost", mongoUriHost (MONGODB_URI cfg))]);
          ("connection",
           JObj [("clientInitialized", JBool (not_null (mongoClient s)));
                 ("dbInitialized", JBool (not_null (db s)))]);
          ("tests", JObj [])] in
  (* Test 1: Connection *)
  r <- attempt (connectToMongo D cfg) ;;
  match r with
  | Raise error =>
      res_json (set_test diagnostics "connection" (failed error))
  | Ok _ =>
      let diagnostics := set_test diagnostics "connection" success in
      (* Test 2: Ping *)
      r <- attempt test_ping ;;
      let diagnostics := set_test diagnostics "ping" (probe r) in
      (* Test 3: List collections *)
      r <- attempt test_listCollections ;;
      let diagnostics := set_test diagnostics "listCollections" (probe r) in
      (* Test 4: Query network_tests *)
      r <- attempt test_networkTests ;;
      let diagnostics := set_test diagnostics "networkTests" (probe r) in
      res_json diagnostics
  end.

(** The body of a failure response of the four read operations. *)
Definition error_code_details (error : exn) : jsval :=
  JObj [("error", JStr (message error));
        ("code", code error);
        ("details", JStr "Check server logs for more information")].

(** [POST /query], lines 140-165. *)
Definition post_query (req_body : jsval) : M response :=
  try_catch
    (connectToMongo D cfg ;;
     b <- destructure req_body "collection" ;;
     let collection := get_prop b "collection" in
     let query := or_default (get_prop b "query") (JObj []) in
     let options := or_default (get_prop b "options") (JObj []) in
     interpolated collection ;;
     console_log "[QUERY] Collection: ${collection}, Query:"
                 [collection; query; JStr "Options:"; options] ;;
     db_dot "collection" ;;
     let cursor := find query in
     sort <- member options "sort" ;;
     let cursor := if truthy sort then cursor_sort cursor sort else cursor in
     skip <- member options "skip" ;;
     let cursor := if truthy skip then cursor_skip cursor skip else cursor in
     limit <- member options "limit" ;;
     let cursor := if truthy limit then cursor_limit cursor limit else cursor in
     results <- await_op D (OpToArray collection cursor) ;;
     n <- member results "length" ;;
     interpolated n ;;
     console_log "[QUERY] Success: returned ${results.length} documents" [n] ;;
     res_json results)
    (fun error =>
       console_error "[QUERY] Error:" [JStr (message error)] ;;
       res_status_json 500 (error_code_details error)).

(** [POST /aggregate], lines 168-188. *)
Definition post_aggregate (req_body : jsval) : M response :=
  try_catch
    (connectToMongo D cfg ;;
     b <- destructure req_body "collection" ;;
     let collection := get_prop b "collection" in
     let pipeline := get_prop b "pipeline" in
     interpolated collection ;;
     console_log "[AGGREGATE] Collection: ${collection}, Pipeline:"
                 [collection; pipeline] ;;
     db_dot "collection" ;;
     results <- await_op D (OpAggregate collection pipeline) ;;
     n <- member results "length" ;;
     interpolated n ;;
     console_log "[AGGREGATE] Success: returned ${results.length} documents" [n] ;;
     res_json results)
    (fun error =>
       console_error "[AGGREGATE] Error:" [JStr (message error)] ;;
       res_status_json 500 (error_code_details error)).

(** [POST /count], lines 191-211. *)
Definition post_count (req_body : jsval) : M response :=
  try_catch
    (connectToMongo D cfg ;;
     b <- destructure req_body "collection" ;;
     let collection := get_prop b "collection" in
     let query := or_default (get_prop b "query") (JObj []) in
     interpolated collection ;;
     console_log "[COUNT] Collection: ${collection}, Query:" [collection; query] ;;
     db_dot "collection" ;;
     count <- await_op D (OpCountDocuments collection query) ;;
     interpolated count ;;
     console_log "[COUNT] Success: ${count} documents" [count] ;;
     res_json (JObj [("count", count)]))
    (fun error =>
       console_error "[COUNT] Error:" [JStr (message error)] ;;
       res_status_json 500 (error_code_details error)).

(** [POST /distinct], lines 214-234. *)
Definition post_distinct (req_body : jsval) : M response :=
  try_catch
    (connectToMongo D cfg ;;
     b <- destructure req_body "collection" ;;
     let collection := get_prop b "collection" in
     let field := get_prop b "field" in
     let query := or_default (get_prop b "query") (JObj []) in
     interpolated collection ;;
     interpolated field ;;
     console_log "[DISTINCT] Collection: ${collection}, Field: ${field}, Query:"
                 [collection; field; query] ;;
     db_dot "collection" ;;
     values <- await_op D (OpDistinct collection field query) ;;
     n <- member values "length" ;;
     interpolated n ;;
     console_log "[DISTINCT] Success: ${values.length} unique values" [n] ;;
     res_json values)
    (fun error =>
       console_error "[DISTINCT] Error:" [JStr (message error)] ;;
       res_status_json 500 (error_code_details error)).

(** [POST /insertOne], lines 237-250. *)
Definition post_insertOne (req_body : jsval) : M response :=
  try_catch
    (connectToMongo D cfg ;;
     b <- destructure req_body "collection" ;;
     let collection := get_prop b "collection" in
     let document := get_prop b "document" in
     db_dot "collection" ;;
     result <- await_op D (OpInsertOne collection document) ;;
     res_json result)
    (fun error =>
       console_error "InsertOne error:" [shown error] ;;
       res_status_json 500 (JObj [("error", JStr (message error))])).

(** [POST /insertMany], lines 253-266. *)
Definition post_insertMany (req_body : jsval) : M response :=
  try_catch
    (connectToMongo D cfg ;;
     b <- destructure req_body "collection" ;;
     let collection := get_prop b "collection" in
     let documents := get_prop b "documents" in
     db_dot "collection" ;;
     result <- await_op D (OpInsertMany collection documents) ;;
     res_json result)
    (fun error =>
       console_error "InsertMany error:" [shown error] ;;
       res_status_json 500 (JObj [("error", JStr (message error))])).

(** The routes of the file. *)
Inductive request : Type :=
| GET_health
| GET_diagnose
| POST_query (req_body : jsval)
| POST_aggregate (req_body : jsval)
| POST_count (req_body : jsval)
| POST_distinct (req_body : jsval)
| POST_insertOne (req_body : jsval)
| POST_insertMany (req_body : jsval).

Definition handle (r : request) : M response :=
  match r with
  | GET_health => get_health
  | GET_diagnose => get_diagnose
  | POST_query b => post_query b
  | POST_aggregate b => post_aggregate b
  | POST_count b => post_count b
  | POST_distinct b => post_distinct b
  | POST_insertOne b => post_insertOne b
  | POST_insertMany b => post_insertMany b
  end.

Definition is_data_operation (r : request) : bool :=
  match r with
  | GET_health | GET_diagnose => false
  | _ => true
  end.

End Handlers.
End Proxy.

(** ** src/server.js: the handlers *)

Module ServerJs.
Section Handlers.

Variable D : Driver.
Variable cfg : config.

(** [GET /health], lines 48-54: not an async function, no driver call. *)
Definition get_health : M response :=
  s <- get ;;
  res_json (JObj [("status", JStr "ok");
                  ("connected", JBool (not_null (db s)));
                  ("database", JStr (DATABASE cfg))]).

Definition error_only (error : exn) : jsval :=
  JObj [("error", JStr (message error))].

(** [POST /query], lines 57-75. *)
Definition post_query (req_body : jsval) : M response :=
  try_catch
    (connectToMongo D cfg ;;
     b <- destructure req_body "collection" ;;
     let collection := get_prop b "collection" in
     let query := or_default (get_prop b "query") (JObj []) in
     let options := or_default (get_prop b "options") (JObj []) in
     db_dot "collection" ;;
     let cursor := find query in
     sort <- member options "sort" ;;
     let cursor := if truthy sort then cursor_sort cursor sort else cursor in
     skip <- member options "skip" ;;
     let cursor := if truthy skip then cursor_skip cursor skip else cursor in
     limit <- member options "limit" ;;
     let cursor := if truthy limit then cursor_limit cursor limit else cursor in
     results <- await_op D (OpToArray collection cursor) ;;
     res_json results)
    (fun error =>
       console_error "Query error:" [shown error] ;;
       res_status_json 500 (error_only error)).

(** [POST /aggregate], lines 78-91. *)
Definition post_aggregate (req_body : jsval) : M response :=
  try_catch
    (connectToMongo D cfg ;;
     b <- destructure req_body "collection" ;;
     let collection := get_prop b "collection" in
     let pipeline := get_prop b "pipeline" in
     db_dot "collection" ;;
     results <- await_op D (OpAggregate collection pipeline) ;;
     res_json results)
    (fun error =>
       console_error "Aggregate error:" [shown error] ;;
       res_status_json 500 (error_only error)).

(** [POST /count], lines 94-107. *)
Definition post_count (req_body : jsval) : M response :=
  try_catch
    (connectToMongo D cfg ;;
     b <- destructure req_body "collection" ;;
     let collection := get_prop b "collection" in
     let query := or_default (get_prop b "query") (JObj []) in
     db_dot "collection" ;;
     count <- await_op D (OpCountDocuments collection query) ;;
     res_json (JObj [("count", count)]))
    (fun error =>
       console_error "Count error:" [shown error] ;;
       res_status_json 500 (error_only error)).

(** [POST /distinct], lines 110-123. *)
Definition post_distinct (req_body : jsval) : M response :=
  try_catch
    (connectToMongo D cfg ;;
     b <- destructure req_body "collection" ;;
     let collection := get_prop b "collection" in
     let field := get_prop b "field" in
     let query := or_default (get_prop b "query") (JObj []) in
     db_dot "collection" ;;
     values <- await_op D (OpDistinct collection field query) ;;
     res_json values)
    (fun error =>
       console_error "Distinct error:" [shown error] ;;
       res_status_json 500 (error_only error)).

(** [POST /insertOne] and [POST /insertMany], lines 126-155, are those of
    the other file. *)
Definition post_insertOne : jsval -> M response := Proxy.post_insertOne D cfg.
Definition post_insertMany : jsval -> M response := Proxy.post_insertMany D cfg.

End Handlers.
End ServerJs.

(** ** The top level of the script (both files) *)

(** The process after the script has run: it has exited, or it listens with
    its constants fixed. *)
Inductive process : Type :=
| Exited (exit_code : Z) (s : state)
| Listening (cfg : config) (s : state).

(** Lines 11-20 and the [app.listen] call: [process.exit(1)] ends the script
    at line 19, before the rest runs. *)
Definition main (env : string -> option string) : process :=
  let PORT := js_or (env_val (env "PORT")) (JNum 3000) in
  let MONGODB_URI := env "MONGODB_URI" in
  let DATABASE :=
    match js_or (env_val (env "DATABASE")) (JStr "Saica") with
    | JStr d => d
    | _ => "Saica"
    end in
  if negb (truthy (env_val MONGODB_URI)) then
    Exited 1
      (push (EExit 1)
         (push (EConsole Error "   Set it in your Render dashboard or .env file" [])
            (push (EConsole Error
                     "❌ ERROR: MONGODB_URI environment variable is required!" [])
               initial)))
  else
    Listening (mkConfig PORT MONGODB_URI DATABASE) (push (EListen PORT) initial).

(** What the event loop delivers to a listening process. *)
Inductive input : Type :=
| Request (r : Proxy.request)
| SIGINT.

(** One delivery.  [process.exit(0)] ends the process; a [close()] that
    rejects leaves the SIGINT handler before its [process.exit]. *)
Definition deliver (D : Driver) (p : process) (i : input) : process :=
  match p with
  | Exited n s => Exited n s
  | Listening cfg s =>
      match i with
      | Request r => Listening cfg (fst (Proxy.handle D cfg r s))
      | SIGINT =>
          match on_SIGINT D s with
          | (s', Ok _) => Exited 0 s'
          | (s', Raise _) => Listening cfg s'
          end
      end
  end.

(** The script, the listen callback, then the deliveries in order. *)
Definition boot (D : Driver) (env : string -> option string) : process :=
  match main env with
  | Exited n s => Exited n s
  | Listening cfg s => Listening cfg (fst (listen_callback D cfg s))
  end.

Definition run (D : Driver) (env : string -> option string) (l : list input)
  : process :=
  fold_left (deliver D) l (boot D env).

Definition state_of (p : process) : state :=
  match p with
  | Exited _ s => s
  | Listening _ s => s
  end.

(** ** Handlers that interleave *)

(** An async function runs up to an [await] and goes on when the awaited
    call settles; between the two, other handlers run.  The only [await]
    between two writes of the handles is the one of [connect()] in
    [connectToMongo]: [begin_connect] is the function up to it (lines 33-38,
    returning the client whose [connect()] is now awaited) and
    [resume_connect] is the rest (lines 39-44). *)
Definition begin_connect (D : Driver) (cfg : config) : M (option nat) :=
  s <- get ;;
  match mongoClient s with
  | Some _ => ret None
  | None =>
      try_catch
        (console_log "Connecting to MongoDB..." [] ;;
         c <- new_MongoClient D (MONGODB_URI cfg) ;;
         set_mongoClient (Some c) ;;
         ret (Some c))
        (fun error =>
           console_error "❌ MongoDB connection error:" [shown error] ;;
           throw error)
  end.

Definition resume_connect (D : Driver) (cfg : config) (c : nat) : M unit :=
  try_catch
    (client_connect D c ;;
     d <- client_db D c (DATABASE cfg) ;;
     set_db (Some d) ;;
     console_log "✅ Connected to MongoDB" [])
    (fun error =>
       console_error "❌ MongoDB connection error:" [shown error] ;;
       throw error).

(** What one turn of the event loop does to the handles: a handler enters
    [connectToMongo]; the [connect()] of a client settles; or a handler does
    any of its other steps, which write to the console or call the driver
    but construct, connect and close nothing. *)
Inductive turn : Type :=
| Enter
| Settle (c : nat)
| Other (e : event).

(** The state with the clients whose [connect()] is awaited. *)
Definition interleave (D : Driver) (cfg : config) (p : state * list nat)
           (a : turn) : state * list nat :=
  let (s, awaited) := p in
  match a with
  | Enter =>
      match begin_connect D cfg s with
      | (s', Ok (Some c)) => (s', c :: awaited)
      | (s', _) => (s', awaited)
      end
  | Settle c =>
      if existsb (Nat.eqb c) awaited
      then (fst (resume_connect D cfg c s),
            filter (fun c' => negb (Nat.eqb c c')) awaited)
      else (s, awaited)
  | Other e =>
      if is_new_client e || is_connect e || is_close e then (s, awaited)
      else (push e s, awaited)
  end.

(** The invariant of the handles with [connect()] calls in flight. *)
Definition one_connect (p : state * list nat) : Prop :=
  clients_created (fst p) <= 1 /\
  connect_attempts (fst p) + List.length (snd p) <= 1 /\
  close_calls (fst p) = 0 /\
  (mongoClient (fst p) = None ->
   clients_created (fst p) = 0 /\ connect_attempts (fst p) = 0 /\ snd p = []).

(** ** Sample drivers and environments *)

Definition unreachable : exn :=
  mkExn "MongoServerSelectionError" "connect ECONNREFUSED 127.0.0.1:27017" JUndef.

Definition answer (o : op) : jsval :=
  match o with
  | OpPing => JObj [("ok", JNum 1)]
  | OpListCollections => JArr [JObj [("name", JStr "network_tests")]]
  | OpCountDocuments _ _ => JNum 2
  | OpFindOne _ => JObj [("_id", JNum 1)]
  | OpToArray _ _ => JArr [JObj [("_id", JNum 1)]; JObj [("_id", JNum 2)]]
  | OpAggregate _ _ => JArr []
  | OpDistinct _ _ _ => JArr [JNum 1; JNum 2]
  | OpInsertOne _ _ => JObj [("acknowledged", JBool true); ("insertedId", JNum 3)]
  | OpInsertMany _ _ => JObj [("acknowledged", JBool true); ("insertedCount", JNum 0)]
  end.

(** Every call succeeds. *)
Definition healthy : Driver :=
  mkDriver (fun _ => None) (fun _ => None) (fun _ => None)
           (fun _ o => Ok (answer o)) (fun _ => None)
           (fun _ => "2025-01-01T00:00:00.000Z") "v20.11.0".

(** The server cannot be reached: [connect()] and every operation fail. *)
Definition down : Driver :=
  mkDriver (fun _ => None) (fun _ => Some unreachable) (fun _ => None)
           (fun _ _ => Raise unreachable) (fun _ => None)
           (fun _ => "2025-01-01T00:00:00.000Z") "v20.11.0".

(** The server is unreachable for the first [connect()] of the process and
    reachable from then on. *)
Definition late : Driver :=
  mkDriver (fun _ => None)
           (fun t => if existsb is_connect t then None else Some unreachable)
           (fun _ => None)
           (fun _ o => Ok (answer o)) (fun _ => None)
           (fun _ => "2025-01-01T00:00:00.000Z") "v20.11.0".

Definition sample_env (k : string) : option string :=
  if k =? "MONGODB_URI" then Some "mongodb+srv://user:pw@cluster0.example.net/Saica"
  else None.

Definition sample_cfg : config :=
  mkConfig (JNum 3000) (sample_env "MONGODB_URI") "Saica".

(** ** An in-memory server *)

Fixpoint jsval_eqb (a b : jsval) : bool :=
  match a, b with
  | JUndef, JUndef | JNull, JNull => true
  | JBool x, JBool y => Bool.eqb x y
  | JNum x, JNum y => (x =? y)%Z
  | JStr x, JStr y => (x =? y)%string
  | JFun x, JFun y => (x =? y)%string
  | JArr l1, JArr l2 =>
      (fix all2 (l1 l2 : list jsval) : bool :=
         match l1, l2 with
         | [], [] => true
         | x :: l1', y :: l2' => jsval_eqb x y && all2 l1' l2'
         | _, _ => false
         end) l1 l2
  | JObj l1, JObj l2 =>
      (fix all2 (l1 l2 : list (string * jsval)) : bool :=
         match l1, l2 with
         | [], [] => true
         | (k, x) :: l1', (k', y) :: l2' =>
             (k =? k')%string && jsval_eqb x y && all2 l1' l2'
         | _, _ => false
         end) l1 l2
  | _, _ => false
  end.

(** A filter of field-value pairs matches the documents that have these
    values in these fields; the empty filter matches every document. *)
Definition matches (query doc : jsval) : bool :=
  match query with
  | JObj fields => forallb (fun kv => jsval_eqb (get_prop doc (fst kv)) (snd kv)) fields
  | _ => false
  end.

Definition users : list jsval :=
  [JObj [("_id", JNum 1); ("name", JStr "ada"); ("role", JStr "admin")];
   JObj [("_id", JNum 2); ("name", JStr "bob"); ("role", JStr "user")];
   JObj [("_id", JNum 3); ("name", JStr "cy"); ("role", JStr "admin")]].

Definition store (coll : jsval) : list jsval :=
  match coll with
  | JStr "users" => users
  | _ => []
  end.

(** A server that holds [store]: a cursor without modifiers yields the
    matching documents in stored order; [limit] and [skip] cut, and a sort is
    left out of this sample. *)
Definition in_memory_toArray (coll : jsval) (c : cursor) : result jsval :=
  let found := filter (matches (cur_filter c)) (store coll) in
  match cur_sort c, cur_skip c, cur_limit c with
  | None, None, None => Ok (JArr found)
  | None, Some (JNum n), None => Ok (JArr (skipn (Z.to_nat n) found))
  | None, None, Some (JNum n) => Ok (JArr (firstn (Z.to_nat n) found))
  | None, Some (JNum n), Some (JNum m) =>
      Ok (JArr (firstn (Z.to_nat m) (skipn (Z.to_nat n) found)))
  | _, _, _ => Raise (mkExn "MongoInvalidArgumentError" "unsupported cursor" JUndef)
  end.

Definition in_memory : Driver :=
  mkDriver (fun _ => None) (fun _ => None) (fun _ => None)
           (fun _ o => match o with
                       | OpToArray coll c => in_memory_toArray coll c
                       | _ => Ok (answer o)
                       end)
           (fun _ => None)
           (fun _ => "2025-01-01T00:00:00.000Z") "v20.11.0".

(** ** The cursor of a find request, in the words of the specification *)

(** "sort/skip/limit applied only if present and truthy": the cursor of
    [find(query)] with each modifier that [options] holds a truthy value
    for, and no other. *)
Definition applied (options : jsval) (k : string) : option jsval :=
  if truthy (get_prop options k) then Some (get_prop options k) else None.

Definition spec_cursor (query options : jsval) : cursor :=
  mkCursor query (applied options "sort") (applied options "skip")
           (applied options "limit").

(** The [query] and [options] of a request body, with their defaults. *)
Definition query_of (req_body : jsval) : jsval :=
  or_default (get_prop req_body "query") (JObj []).
Definition options_of (req_body : jsval) : jsval :=
  or_default (get_prop req_body "options") (JObj []).

(** The [toArray] calls of a trace are calls on [coll] with cursor [c]. *)
Definition toArray_calls_are (coll : jsval) (c : cursor) (new : trace) : Prop :=
  forall coll' c' r, In (EOp (OpToArray coll' c') r) new -> coll' = coll /\ c' = c.

(** ** Properties of computations *)

Open Scope list_scope.

(** The trace only grows, and a call into the driver that failed is the
    exception the computation ends with. *)
Definition honest {A} (m : M A) : Prop :=
  forall s, exists new,
    events (fst (m s)) = new ++ events s /\
    forall ev x, In ev new -> failure_of ev = Some x -> snd (m s) = Raise x.

(** Every value the computation returns satisfies [Q]. *)
Definition ensures {A} (Q : A -> Prop) (m : M A) : Prop :=
  forall s a, snd (m s) = Ok a -> Q a.

(** The invariant of the two handles: one client at most was constructed,
    [connect()] was called once at most, and nothing was constructed or
    connected while [mongoClient] is null. *)
Definition single_handle (s : state) : Prop :=
  clients_created s <= 1 /\
  connect_attempts s <= 1 /\
  (mongoClient s = None ->
   clients_created s = 0 /\ connect_attempts s = 0 /\ db s = None).

(** What a step from [s] to [s'] may do to the handles: keep the invariant,
    keep a client that is set, keep the [db] of a state under the invariant,
    call no [close()]. *)
Definition keeps_handle (s s' : state) : Prop :=
  (single_handle s -> single_handle s') /\
  (forall c, mongoClient s = Some c -> mongoClient s' = Some c) /\
  (single_handle s -> forall d, db s = Some d -> db s' = Some d) /\
  close_calls s' = close_calls s.

Definition careful {A} (m : M A) : Prop :=
  forall s, keeps_handle s (fst (m s)).

(** The body of the failure response of a data operation. *)
Definition failure_body (r : Proxy.request) (x : exn) : jsval :=
  match r with
  | Proxy.POST_insertOne _ | Proxy.POST_insertMany _ =>
      JObj [("error", JStr (message x))]
  | _ =>
      JObj [("error", JStr (message x));
            ("code", code x);
            ("details", JStr "Check server logs for more information")]
  end.

(** The trace at the moment [connectToMongo] calls [connect()]. *)
Definition connecting (cfg : config) (s : state) : trace :=
  ENewClient (MONGODB_URI cfg) None
    :: EConsole Log "Connecting to MongoDB..." [] :: events s.

(** A probe entry of [/diagnose]: succeeded, or failed with a message. *)
Definition succeeded (v : jsval) : Prop := get_prop v "status" = JStr "success".


(** ** Further properties: what they are stated with *)

(** The driver operations of a trace, newest first, alone and with their
    outcomes. *)
Fixpoint ops_of (t : trace) : list op :=
  match t with
  | [] => []
  | EOp o _ :: t' => o :: ops_of t'
  | _ :: t' => ops_of t'
  end.

Fixpoint op_outcomes (t : trace) : list (op * result jsval) :=
  match t with
  | [] => []
  | EOp o r :: t' => (o, r) :: op_outcomes t'
  | _ :: t' => op_outcomes t'
  end.

(** A client is set and [db] is null: a [connect()] is awaited, or it was
    rejected, or [client.db] threw. *)
Definition not_ready (s : state) : Prop :=
  mongoClient s <> None /\ db s = None.

(** Once a client is set, the computation leaves both handles alone. *)
Definition settled {A} (m : M A) : Prop :=
  forall s, mongoClient s <> None ->
            mongoClient (fst (m s)) = mongoClient s /\ db (fst (m s)) = db s.

(** [db] is never reset to null, and the computation calls no driver
    operation if it ends with [db] null. *)
Definition guarded {A} (m : M A) : Prop :=
  forall s,
    (db s <> None -> db (fst (m s)) <> None) /\
    exists new, events (fst (m s)) = new ++ events s /\
                (db (fst (m s)) = None -> ops_of new = []).

(** With [db] set, the computation keeps it set and only adds to the
    trace. *)
Definition live {A} (m : M A) : Prop :=
  forall s, db s <> None ->
            db (fst (m s)) <> None /\
            exists new, events (fst (m s)) = new ++ events s.


(** The [req.body] of a data operation. *)
Definition body_of (r : Proxy.request) : jsval :=
  match r with
  | Proxy.GET_health | Proxy.GET_diagnose => JUndef
  | Proxy.POST_query b | Proxy.POST_aggregate b | Proxy.POST_count b
  | Proxy.POST_distinct b | Proxy.POST_insertOne b | Proxy.POST_insertMany b => b
  end.

(** The routes of [src/server.js]: it has no [/diagnose]. *)
Definition server_js_handle (D : Driver) (cfg : config) (r : Proxy.request)
  : option (M response) :=
  match r with
  | Proxy.GET_health => Some (ServerJs.get_health cfg)
  | Proxy.GET_diagnose => None
  | Proxy.POST_query b => Some (ServerJs.post_query D cfg b)
  | Proxy.POST_aggregate b => Some (ServerJs.post_aggregate D cfg b)
  | Proxy.POST_count b => Some (ServerJs.post_count D cfg b)
  | Proxy.POST_distinct b => Some (ServerJs.post_distinct D cfg b)
  | Proxy.POST_insertOne b => Some (ServerJs.post_insertOne D cfg b)
  | Proxy.POST_insertMany b => Some (ServerJs.post_insertMany D cfg b)
  end.

(** The trace at the moment the SIGINT handler calls [close()]. *)
Definition shutting_down (s : state) : trace :=
  EConsole Log "Shutting down..." [] :: events s.

Definition is_exit (e : event) : bool :=
  match e with EExit _ => true | _ => false end.

(** The body of the failure response of a data operation of
    [src/server.js]. *)
Definition server_js_failure_body (x : exn) : jsval :=
  JObj [("error", JStr (message x))].

(** The driver call of a request of [/aggregate], [/count], [/distinct],
    [/insertOne] or [/insertMany], read off its body. *)
Definition operation_of (r : Proxy.request) : option op :=
  match r with
  | Proxy.POST_aggregate b =>
      Some (OpAggregate (get_prop b "collection") (get_prop b "pipeline"))
  | Proxy.POST_count b =>
      Some (OpCountDocuments (get_prop b "collection") (query_of b))
  | Proxy.POST_distinct b =>
      Some (OpDistinct (get_prop b "collection") (get_prop b "field") (query_of b))
  | Proxy.POST_insertOne b =>
      Some (OpInsertOne (get_prop b "collection") (get_prop b "document"))
  | Proxy.POST_insertMany b =>
      Some (OpInsertMany (get_prop b "collection") (get_prop b "documents"))
  | _ => None
  end.

(** The body of the 200 for the value [v] the driver returned. *)
Definition answer_of (r : Proxy.request) (v : jsval) : jsval :=
  match r with
  | Proxy.POST_count _ => JObj [("count", v)]
  | _ => v
  end.

(** The handlers that print the [length] of the result before they answer. *)
Definition reads_length (r : Proxy.request) : bool :=
  match r with
  | Proxy.POST_query _ | Proxy.POST_aggregate _ | Proxy.POST_distinct _ => true
  | _ => false
  end.

(** What the log line before the driver call interpolates, and what the
    log line after it interpolates for the value [v] the driver returned
    (the read of [length] throws on null and undefined). *)
Definition logged_before (r : Proxy.request) : list jsval :=
  match r with
  | Proxy.POST_query b | Proxy.POST_aggregate b | Proxy.POST_count b =>
      [get_prop b "collection"]
  | Proxy.POST_distinct b => [get_prop b "collection"; get_prop b "field"]
  | _ => []
  end.

Definition logged_after (r : Proxy.request) (v : jsval) : result jsval :=
  match r with
  | Proxy.POST_count _ => Ok v
  | _ =>
      if reads_length r then
        if nullish v then Raise (read_of_nullish v "length")
        else Ok (get_prop v "length")
      else Ok JUndef
  end.

(** The response to the outcome of the driver call of a request: the 500 of
    the driver's error, the 500 of an error of the log line after the call,
    or the 200. *)
Definition response_to (r : Proxy.request) (out : result jsval) : response :=
  match out with
  | Raise x => mkResponse 500 (failure_body r x)
  | Ok v =>
      match logged_after r v with
      | Raise x => mkResponse 500 (failure_body r x)
      | Ok n =>
          if unprintable n then mkResponse 500 (failure_body r not_primitive)
          else mkResponse 200 (answer_of r v)
      end
  end.

(** Every call of the constructor, also one that threw. *)
Definition is_construction (e : event) : bool :=
  match e with ENewClient _ _ => true | _ => false end.

(** Whether a character occurs in a string, and the part of a string before
    the first occurrence of a character (the whole string without one). *)
Fixpoint occurs (c : ascii) (s : string) : bool :=
  match s with
  | EmptyString => false
  | String c' s' => Ascii.eqb c' c || occurs c s'
  end.

Fixpoint before (c : ascii) (s : string) : string :=
  match s with
  | EmptyString => EmptyString
  | String c' s' => if Ascii.eqb c' c then EmptyString else String c' (before c s')
  end.

(** ** src/unnamed/part_001: the setup script *)

Module Setup.

(** What the script does to the outside, newest first: a line on the
    terminal, the prompt of [read], a [git] command with its exit status. *)
Inductive sh_event : Type :=
| Echo (text : string)
| Read (prompt : string)
| Git (args : list string) (exit_status : Z).

(** The exit status of each [git] command, from what ran before it. *)
Definition git_oracle : Type := list sh_event -> list string -> Z.

Definition git (g : git_oracle) (args : list string) (t : list sh_event)
  : list sh_event * Z :=
  (Git args (g t args) :: t, g t args).

Definition echo (text : string) (t : list sh_event) : list sh_event :=
  Echo text :: t.

Definition is_git (e : sh_event) : bool :=
  match e with Git _ _ => true | _ => false end.

(** The [git] commands of a trace, oldest first. *)
Definition git_commands (t : list sh_event) : list (list string) :=
  rev (flat_map (fun e => match e with Git args _ => [args] | _ => [] end) t).

(** Lines 3-17: the banner and [read -p ... REPO_URL]. *)
Definition banner : list sh_event :=
  Read "Enter your new repo URL (e.g., https://github.com/YOUR-USERNAME/qcw-mongo-proxy): "
  :: echo "" (echo "2. After creating, come back here and enter your repo URL"
    (echo "" (echo "   - Don't initialize with README"
    (echo "   - Public or Private: Your choice"
    (echo "   - Description: MongoDB HTTP Proxy for QCW Dashboard"
    (echo "   - Name: qcw-mongo-proxy"
    (echo "1. Create a new repo on GitHub: https://github.com/new"
    (echo "Steps:" (echo ""
    (echo "This will create a new GitHub repo for the proxy so Render can deploy it."
    (echo "" (echo "=========================================="
    (echo "🚀 Setting up simple-mongo-proxy for GitHub" []))))))))))))).

(** The script on the value [read] left in [REPO_URL]: its trace and its
    exit status.  There is no [set -e]: a command that fails does not end
    the script, and without [exit] the status is the one of the last
    command, an [echo]. *)
Definition script (g : git_oracle) (REPO_URL : string) : list sh_event * Z :=
  let t := banner in
  if (REPO_URL =? "")%string then
    (echo "❌ No URL provided. Exiting." t, 1%Z)
  else
    let t := echo "📦 Initializing git..." (echo "" t) in
    let (t, _) := git g ["init"] t in
    let t := echo "📝 Adding files..." t in
    let (t, _) := git g ["add"; "."] t in
    let t := echo "💾 Committing..." t in
    let (t, _) :=
      git g ["commit"; "-m"; "Initial commit: MongoDB proxy for Cloudflare Workers"] t in
    let t := echo "🔗 Adding remote..." t in
    let (t, _) := git g ["remote"; "add"; "origin"; REPO_URL] t in
    let t := echo "⬆️  Pushing to GitHub..." t in
    let (t, pushed) := git g ["push"; "-u"; "origin"; "master"] t in
    let t := if (pushed =? 0)%Z then t
             else fst (git g ["push"; "-u"; "origin"; "main"] t) in
    let t := echo "✅ Done!" (echo "" t) in
    let t := echo ("Your proxy is now on GitHub at: " ++ REPO_URL)%string (echo "" t) in
    let t := echo "Save this URL - you'll need it for Render deployment!" (echo "" t) in
    (t, 0%Z).

End Setup.

(** ** Symbolic execution of handler bodies *)

Ltac unfold_monad :=
  unfold connectToMongo, listen_callback, on_SIGINT, process_exit,
    new_MongoClient, client_connect, client_db, client_close, await_op,
    db_dot, date_now, console_log, console_error, member, destructure,
    interpolated, res_json, res_status_json, try_catch, attempt, bind, ret,
    throw, get, emit, set_mongoClient, set_db, outcome_of in *.

Ltac case_step :=
  match goal with
  | |- context [match ?x with _ => _ end] =>
      lazymatch x with
      | context [match _ with _ => _ end] => fail
      | _ => let E := fresh "E" in destruct x eqn:E
      end
  end.

Ltac exec :=
  unfold_monad; simpl in *; repeat (case_step; simpl in *; try discriminate).

(** The events a state has on top of [base]. *)
Ltac added t base :=
  lazymatch t with
  | base => constr:(@nil event)
  | ?e :: ?t' => let r := added t' base in constr:(e :: r)
  end.

Ltac give_added :=
  match goal with
  | |- exists new, ?t = new ++ ?base /\ _ =>
      let n := added t base in exists n; split; [reflexivity |]
  end.

Ltac failures :=
  simpl; intros ? ? Hin Hf;
  repeat (destruct Hin as [Hin | Hin]; [subst; simpl in Hf; try discriminate |]);
  try contradiction; try (inversion Hf; subst; reflexivity).

Ltac toArray_call Hin :=
  inversion Hin; subst; split; [reflexivity |];
  unfold find, cursor_sort, cursor_skip, cursor_limit; simpl;
  repeat match goal with
         | H : truthy _ = _ |- _ => rewrite H; clear H
         end;
  reflexivity.

Ltac toArray_calls :=
  unfold toArray_calls_are; simpl; intros ? ? ? Hin;
  repeat (destruct Hin as [Hin | Hin];
          [first [discriminate | toArray_call Hin] |]);
  contradiction.

(** ** Composition *)

Lemma honest_ret {A} (a : A) : honest (ret a).
Proof. intros s. exists []. split; [reflexivity | intros ? ? []]. Qed.

Lemma honest_throw {A} (e : exn) : honest (@throw A e).
Proof. intros s. exists []. split; [reflexivity | intros ? ? []]. Qed.

Lemma honest_get : honest get.
Proof. intros s. exists []. split; [reflexivity | intros ? ? []]. Qed.

Lemma honest_bind {A B} (m : M A) (k : A -> M B) :
  honest m -> (forall a, honest (k a)) -> honest (bind m k).
Proof.
  intros Hm Hk s. unfold bind.
  destruct (Hm s) as (n1 & E1 & F1).
  destruct (m s) as [s1 [a | e]] eqn:Em; simpl in *.
  - destruct (Hk a s1) as (n2 & E2 & F2).
    exists (n2 ++ n1). split.
    + rewrite E2, E1. apply app_assoc.
    + intros ev x Hin Hf. apply in_app_or in Hin. destruct Hin as [Hin | Hin].
      * eauto.
      * specialize (F1 ev x Hin Hf). discriminate.
  - exists n1. split; [assumption |].
    intros ev x Hin Hf. specialize (F1 ev x Hin Hf). congruence.
Qed.

Lemma honest_console_log text args : honest (console_log text args).
Proof. intros s. simpl. give_added. failures. Qed.

Lemma honest_console_error text args : honest (console_error text args).
Proof. intros s. simpl. give_added. failures. Qed.

Lemma honest_member v k : honest (member v k).
Proof. unfold member. destruct (nullish v); [apply honest_throw | apply honest_ret]. Qed.

Lemma honest_interpolated v : honest (interpolated v).
Proof.
  unfold interpolated. destruct (unprintable v); [apply honest_throw | apply honest_ret].
Qed.

Lemma honest_destructure v k : honest (destructure v k).
Proof.
  unfold destructure. destruct (nullish v); [apply honest_throw | apply honest_ret].
Qed.

Lemma honest_db_dot k : honest (db_dot k).
Proof.
  unfold db_dot. apply honest_bind; [apply honest_get |].
  intros s. destruct (db s); [apply honest_ret | apply honest_throw].
Qed.

Lemma honest_await_op D o : honest (await_op D o).
Proof.
  intros s. unfold await_op. simpl. give_added. failures.
  destruct (run_op D (events s) o); simpl in Hf; congruence.
Qed.

Lemma honest_connectToMongo D cfg : honest (connectToMongo D cfg).
Proof.
  intros s. exec; try (give_added; failures); exists []; split; try reflexivity;
    intros ? ? [].
Qed.

Lemma ensures_bind {A B} (Q : B -> Prop) (m : M A) (k : A -> M B) :
  (forall a, ensures Q (k a)) -> ensures Q (bind m k).
Proof.
  intros Hk s b. unfold bind. destruct (m s) as [s1 [a | e]]; simpl.
  - apply Hk.
  - discriminate.
Qed.

Lemma ensures_res_json (Q : response -> Prop) x :
  Q (mkResponse 200 x) -> ensures Q (res_json x).
Proof. intros H s a E. inversion E. subst. exact H. Qed.

Ltac honesty :=
  repeat match goal with
    | |- honest (bind _ _) => apply honest_bind; [| intros ?]
    | |- honest (connectToMongo _ _) => apply honest_connectToMongo
    | |- honest (ret _) => apply honest_ret
    | |- honest (res_json _) => apply honest_ret
    | |- honest (throw _) => apply honest_throw
    | |- honest get => apply honest_get
    | |- honest (console_log _ _) => apply honest_console_log
    | |- honest (console_error _ _) => apply honest_console_error
    | |- honest (member _ _) => apply honest_member
    | |- honest (interpolated _) => apply honest_interpolated
    | |- honest (destructure _ _) => apply honest_destructure
    | |- honest (db_dot _) => apply honest_db_dot
    | |- honest (await_op _ _) => apply honest_await_op
    | |- honest (match ?x with _ => _ end) => destruct x
    | |- honest (let _ := _ in _) => cbv zeta
    end.

Ltac answers_200 :=
  repeat first
    [ apply ensures_res_json; reflexivity
    | apply ensures_bind; intros ? ].

(** A handler whose whole body is a [try] block and whose [catch] logs the
    error and answers 500. *)
Lemma try_catch_answers (body : M response) (text : string)
      (args : exn -> list jsval) (f : exn -> jsval) :
  honest body ->
  ensures (fun r => status r = 200%Z) body ->
  forall s, exists new s' resp,
    try_catch body
      (fun error => console_error text (args error) ;;
                    res_status_json 500 (f error)) s = (s', Ok resp) /\
    events s' = new ++ events s /\
    ((status resp = 200%Z /\ forall ev, In ev new -> failure_of ev = None) \/
     (exists x new0,
        resp = mkResponse 500 (f x) /\
        new = EConsole Error text (args x) :: new0 /\
        forall ev y, In ev new -> failure_of ev = Some y -> y = x)).
Proof.
  intros Hh H200 s. destruct (Hh s) as (new & E & F).
  specialize (H200 s). unfold try_catch.
  destruct (body s) as [s1 [resp | e]] eqn:Eb; simpl in *.
  - exists new, s1, resp. split; [reflexivity |]. split; [assumption |].
    left. split; [apply H200; reflexivity |].
    intros ev Hin. destruct (failure_of ev) eqn:Ef; [| reflexivity].
    specialize (F ev e Hin Ef). discriminate.
  - exists (EConsole Error text (args e) :: new). eexists. eexists.
    split; [reflexivity |]. split; [simpl; rewrite E; reflexivity |].
    right. exists e, new. split; [reflexivity |]. split; [reflexivity |].
    intros ev y [Hin | Hin] Hf.
    + subst. discriminate.
    + specialize (F ev y Hin Hf). congruence.
Qed.

Lemma data_operation_answers D cfg r s :
  Proxy.is_data_operation r = true ->
  exists new s' resp,
    Proxy.handle D cfg r s = (s', Ok resp) /\
    events s' = new ++ events s /\
    ((status resp = 200%Z /\ forall ev, In ev new -> failure_of ev = None) \/
     (exists x text args new0,
        resp = mkResponse 500 (failure_body r x) /\
        new = EConsole Error text args :: new0 /\
        forall ev y, In ev new -> failure_of ev = Some y -> y = x)).
Proof.
  intros Hr.
  assert (H : exists text args f,
             f = failure_body r /\
             exists body, honest body /\ ensures (fun r => status r = 200%Z) body /\
               Proxy.handle D cfg r
               = try_catch body (fun error => console_error text (args error) ;;
                                              res_status_json 500 (f error))).
  { destruct r; try discriminate; simpl;
      (do 3 eexists; split; [reflexivity |]; eexists;
       split; [| split; [| reflexivity]]; [honesty | answers_200]). }
  destruct H as (text & args & f & Ef & body & Hh & H200 & E). rewrite E.
  destruct (try_catch_answers body text args f Hh H200 s)
    as (new & s' & resp & E' & Ev & [H | (x & new0 & Hx & Hn & Hf)]).
  - exists new, s', resp. split; [assumption |]. split; [assumption |].
    left. assumption.
  - exists new, s', resp. split; [assumption |]. split; [assumption |].
    right. exists x, text, (args x), new0. subst f. auto.
Qed.

(** ** The handles under the handlers *)

Lemma keeps_handle_refl s : keeps_handle s s.
Proof. unfold keeps_handle. auto. Qed.

Lemma keeps_handle_trans s1 s2 s3 :
  keeps_handle s1 s2 -> keeps_handle s2 s3 -> keeps_handle s1 s3.
Proof.
  unfold keeps_handle. intros (A1 & B1 & C1 & D1) (A2 & B2 & C2 & D2).
  split; [auto |]. split; [auto |]. split; [auto | congruence].
Qed.

Lemma keeps_handle_push e s :
  is_new_client e = false -> is_connect e = false -> is_close e = false ->
  keeps_handle s (push e s).
Proof.
  intros H1 H2 H3.
  unfold keeps_handle, single_handle, clients_created, connect_attempts,
    close_calls, count_events.
  simpl. rewrite H1, H2, H3. auto.
Qed.

Lemma careful_ret {A} (a : A) : careful (ret a).
Proof. intros s. apply keeps_handle_refl. Qed.

Lemma careful_throw {A} (e : exn) : careful (@throw A e).
Proof. intros s. apply keeps_handle_refl. Qed.

Lemma careful_get : careful get.
Proof. intros s. apply keeps_handle_refl. Qed.

Lemma careful_bind {A B} (m : M A) (k : A -> M B) :
  careful m -> (forall a, careful (k a)) -> careful (bind m k).
Proof.
  intros Hm Hk s. unfold bind. specialize (Hm s).
  destruct (m s) as [s1 [a | e]]; simpl in *; [| assumption].
  eapply keeps_handle_trans; [eassumption | apply Hk].
Qed.

Lemma careful_try_catch {A} (m : M A) (h : exn -> M A) :
  careful m -> (forall e, careful (h e)) -> careful (try_catch m h).
Proof.
  intros Hm Hh s. unfold try_catch. specialize (Hm s).
  destruct (m s) as [s1 [a | e]]; simpl in *; [assumption |].
  eapply keeps_handle_trans; [eassumption | apply Hh].
Qed.

Lemma careful_attempt {A} (m : M A) : careful m -> careful (attempt m).
Proof.
  intros Hm s. unfold attempt. specialize (Hm s).
  destruct (m s) as [s1 r]; assumption.
Qed.

Lemma careful_console_log text args : careful (console_log text args).
Proof. intros s. apply keeps_handle_push; reflexivity. Qed.

Lemma careful_console_error text args : careful (console_error text args).
Proof. intros s. apply keeps_handle_push; reflexivity. Qed.

Lemma careful_member v k : careful (member v k).
Proof. unfold member. destruct (nullish v); [apply careful_throw | apply careful_ret]. Qed.

Lemma careful_interpolated v : careful (interpolated v).
Proof.
  unfold interpolated.
  destruct (unprintable v); [apply careful_throw | apply careful_ret].
Qed.

Lemma careful_destructure v k : careful (destructure v k).
Proof.
  unfold destructure. destruct (nullish v); [apply careful_throw | apply careful_ret].
Qed.

Lemma careful_db_dot k : careful (db_dot k).
Proof.
  unfold db_dot. apply careful_bind; [apply careful_get |].
  intros s. destruct (db s); [apply careful_ret | apply careful_throw].
Qed.

Lemma careful_date_now D : careful (date_now D).
Proof. intros s. apply keeps_handle_refl. Qed.

Lemma careful_await_op D o : careful (await_op D o).
Proof. intros s. apply keeps_handle_push; reflexivity. Qed.

Lemma careful_res_json x : careful (res_json x).
Proof. apply careful_ret. Qed.

Lemma careful_res_status_json n x : careful (res_status_json n x).
Proof. apply careful_ret. Qed.

Lemma careful_connectToMongo D cfg : careful (connectToMongo D cfg).
Proof.
  intros s. unfold keeps_handle, single_handle, clients_created,
    connect_attempts, close_calls, count_events.
  exec; repeat split; intros; try discriminate; try congruence; try lia;
    intuition (try congruence; try lia).
Qed.

Lemma careful_map_name l : careful (Proxy.map_name l).
Proof.
  induction l as [| c l IH]; simpl.
  - apply careful_ret.
  - apply careful_bind; [apply careful_member |]. intros n.
    apply careful_bind; [exact IH |]. intros ns. apply careful_ret.
Qed.

Lemma careful_collections_map_name v : careful (Proxy.collections_map_name v).
Proof.
  destruct v; simpl; try apply careful_throw.
  apply careful_bind; [apply careful_map_name | intros; apply careful_ret].
Qed.

Ltac carefully :=
  repeat match goal with
    | |- careful (bind _ _) => apply careful_bind; [| intros ?]
    | |- careful (try_catch _ _) => apply careful_try_catch; [| intros ?]
    | |- careful (attempt _) => apply careful_attempt
    | |- careful (connectToMongo _ _) => apply careful_connectToMongo
    | |- careful (ret _) => apply careful_ret
    | |- careful (throw _) => apply careful_throw
    | |- careful get => apply careful_get
    | |- careful (res_json _) => apply careful_res_json
    | |- careful (res_status_json _ _) => apply careful_res_status_json
    | |- careful (console_log _ _) => apply careful_console_log
    | |- careful (console_error _ _) => apply careful_console_error
    | |- careful (member _ _) => apply careful_member
    | |- careful (interpolated _) => apply careful_interpolated
    | |- careful (destructure _ _) => apply careful_destructure
    | |- careful (db_dot _) => apply careful_db_dot
    | |- careful (date_now _) => apply careful_date_now
    | |- careful (await_op _ _) => apply careful_await_op
    | |- careful (Proxy.collections_map_name _) =>
        apply careful_collections_map_name
    | |- careful (match ?x with _ => _ end) => destruct x
    | |- careful (let _ := _ in _) => cbv zeta
    end.

Lemma careful_handle D cfg r : careful (Proxy.handle D cfg r).
Proof.
  destruct r; simpl;
    unfold Proxy.get_health, Proxy.get_diagnose, Proxy.post_query,
      Proxy.post_aggregate, Proxy.post_count, Proxy.post_distinct,
      Proxy.post_insertOne, Proxy.post_insertMany, Proxy.test_ping,
      Proxy.test_listCollections, Proxy.test_networkTests;
    carefully.
Qed.

Lemma careful_listen_callback D cfg : careful (listen_callback D cfg).
Proof. unfold listen_callback. carefully. Qed.

Lemma single_handle_on_SIGINT D s :
  single_handle s -> single_handle (fst (on_SIGINT D s)).
Proof.
  unfold single_handle, clients_created, connect_attempts, count_events.
  intros (H1 & H2 & H3). exec; (split; [lia | split; [lia |]]);
    intros; try congruence; auto.
Qed.

Lemma single_handle_main env : single_handle (state_of (main env)).
Proof.
  unfold main. destruct (negb _); simpl;
    unfold single_handle, clients_created, connect_attempts, count_events;
    simpl; auto.
Qed.

Lemma close_calls_main env : close_calls (state_of (main env)) = 0.
Proof. unfold main. destruct (negb _); reflexivity. Qed.

Lemma single_handle_boot D env : single_handle (state_of (boot D env)).
Proof.
  unfold boot. pose proof (single_handle_main env) as H.
  destruct (main env) as [n s | cfg s]; simpl in *; [assumption |].
  apply (careful_listen_callback D cfg s). assumption.
Qed.

Lemma close_calls_boot D env : close_calls (state_of (boot D env)) = 0.
Proof.
  unfold boot. pose proof (close_calls_main env) as H.
  destruct (main env) as [n s | cfg s]; simpl in *; [assumption |].
  destruct (careful_listen_callback D cfg s) as (_ & _ & _ & Hc). congruence.
Qed.

Lemma single_handle_deliver D p i :
  single_handle (state_of p) -> single_handle (state_of (deliver D p i)).
Proof.
  destruct p as [n s | cfg s]; simpl; [auto |]. intros H.
  destruct i as [r |]; simpl.
  - apply (careful_handle D cfg r s). assumption.
  - pose proof (single_handle_on_SIGINT D s H) as H'.
    destruct (on_SIGINT D s) as [s' [u | e]]; assumption.
Qed.

Lemma single_handle_fold D l : forall p,
  single_handle (state_of p) ->
  single_handle (state_of (fold_left (deliver D) l p)).
Proof.
  induction l as [| i l IH]; simpl; intros p H; [assumption |].
  apply IH. apply single_handle_deliver. assumption.
Qed.

Lemma close_calls_fold D l : forall p,
  close_calls (state_of (fold_left (deliver D) l p)) <> close_calls (state_of p) ->
  In SIGINT l.
Proof.
  induction l as [| i l IH]; simpl; intros p H; [congruence |].
  destruct i as [r |]; [right | left; reflexivity].
  apply (IH (deliver D p (Request r))).
  destruct p as [n s | cfg s]; simpl in *; [assumption |].
  destruct (careful_handle D cfg r s) as (_ & _ & _ & Hc). congruence.
Qed.

Lemma connectToMongo_split D cfg s :
  connectToMongo D cfg s
  = bind (begin_connect D cfg)
         (fun o => match o with
                   | Some c => resume_connect D cfg c
                   | None => ret tt
                   end) s.
Proof. unfold begin_connect, resume_connect. exec; reflexivity. Qed.

Lemma one_connect_interleave D cfg p a :
  one_connect p -> one_connect (interleave D cfg p a).
Proof.
  destruct p as [[[c0 |] d t] awaited];
    unfold one_connect, clients_created, connect_attempts, close_calls,
      count_events; simpl; intros (H1 & H2 & H3 & H4).
  - (* a client is set *)
    destruct a as [| c | e]; simpl.
    + split; [| split; [| split]]; [assumption .. | discriminate].
    + destruct (existsb (Nat.eqb c) awaited) eqn:Ec; simpl;
        [| split; [| split; [| split]]; [assumption .. | discriminate]].
      assert (Ha : awaited = [c]).
      { destruct awaited as [| c1 [| c2 l]]; simpl in *; try discriminate; try lia.
        rewrite orb_false_r in Ec. apply Nat.eqb_eq in Ec. congruence. }
      subst awaited. simpl in *. rewrite Nat.eqb_refl. simpl.
      unfold resume_connect. exec;
        (split; [| split; [| split]]; [lia .. | discriminate]).
    + destruct (is_new_client e) eqn:E1; simpl;
        [split; [| split; [| split]]; [assumption .. | discriminate] |].
      destruct (is_connect e) eqn:E2; simpl;
        [split; [| split; [| split]]; [assumption .. | discriminate] |].
      destruct (is_close e) eqn:E3; simpl;
        [split; [| split; [| split]]; [assumption .. | discriminate] |].
      rewrite E1, E2, E3.
      split; [| split; [| split]]; [assumption .. | discriminate].
  - (* no client yet *)
    destruct (H4 eq_refl) as (Hn & Hc & Ha). subst awaited. simpl in *.
    destruct a as [| c | e]; simpl.
    + unfold begin_connect. exec;
        (split; [| split; [| split]]; [lia .. | auto; discriminate]).
    + split; [| split; [| split]]; auto.
    + destruct (is_new_client e) eqn:E1; simpl;
        [split; [| split; [| split]]; auto |].
      destruct (is_connect e) eqn:E2; simpl;
        [split; [| split; [| split]]; auto |].
      destruct (is_close e) eqn:E3; simpl;
        [split; [| split; [| split]]; auto |].
      rewrite E1, E2, E3. split; [| split; [| split]]; auto.
Qed.

Lemma one_connect_fold D cfg l : forall p,
  one_connect p -> one_connect (fold_left (interleave D cfg) l p).
Proof.
  induction l as [| a l IH]; simpl; intros p H; [assumption |].
  apply IH. apply one_connect_interleave. assumption.
Qed.

(** C4.  One connection handle per process, established once at most: in
    the state of the process after the script, the listen callback and any
    deliveries of requests and signals, one client at most was constructed
    and [connect()] was called once at most; a [close()] was only called if
    SIGINT was delivered; and each request handler, run from any state,
    keeps the invariant, keeps a [mongoClient] that is set, keeps the [db]
    of a state under the invariant and calls no [close()].  The same holds
    when handlers interleave at the [await] of [connect()]: after any turns
    of the event loop one client at most was constructed, and the
    [connect()] calls settled and in flight are one at most. *)
Theorem single_connection_handle D env l :
  single_handle (state_of (run D env l)) /\
  (close_calls (state_of (run D env l)) <> 0 -> In SIGINT l) /\
  (forall cfg r s, keeps_handle s (fst (Proxy.handle D cfg r s))) /\
  (forall cfg turns, one_connect (fold_left (interleave D cfg) turns (initial, []))).
Proof.
  split; [| split; [| split]].
  - apply single_handle_fold, single_handle_boot.
  - intros H. apply (close_calls_fold D l (boot D env)).
    rewrite close_calls_boot. exact H.
  - intros cfg r s. apply careful_handle.
  - intros cfg turns. apply one_connect_fold.
    unfold one_connect, clients_created, connect_attempts, close_calls,
      count_events.
    simpl. split; [lia |]. split; [lia |]. split; [reflexivity |]. auto.
Qed.

(** ** Activation *)

Lemma connectToMongo_established D cfg s :
  mongoClient s <> None -> connectToMongo D cfg s = (s, Ok tt).
Proof.
  intros H. unfold connectToMongo, bind, get, ret.
  destruct (mongoClient s); [reflexivity | congruence].
Qed.

(** C1.  When [connect()] rejects with [e] inside [connectToMongo], the
    caller gets [e] itself and [db] is as it was, but [mongoClient] holds the
    client that failed: every later call returns at once, whatever the driver
    would answer, and makes no connection attempt. *)
Theorem connect_rejection_blocks_retry D cfg s e :
  mongoClient s = None ->
  new_throws D (MONGODB_URI cfg) = None ->
  connect_rejects D (connecting cfg s) = Some e ->
  exists s1,
    connectToMongo D cfg s = (s1, Raise e) /\
    db s1 = db s /\
    mongoClient s1 = Some (clients_created s) /\
    forall D', connectToMongo D' cfg s1 = (s1, Ok tt).
Proof.
  intros Hc Hn Hr. unfold connecting in Hr. eexists. split; [| split; [| split]].
  - unfold_monad. simpl. rewrite Hc, Hn. simpl. rewrite Hr. reflexivity.
  - reflexivity.
  - reflexivity.
  - intros D'. apply connectToMongo_established. simpl. discriminate.
Qed.

Lemma connect_rejection_blocks_retry_witness :
  exists s1,
    connectToMongo late sample_cfg initial = (s1, Raise unreachable) /\
    db s1 = None /\
    mongoClient s1 = Some 0 /\
    forall D', connectToMongo D' sample_cfg s1 = (s1, Ok tt).
Proof.
  apply (connect_rejection_blocks_retry late sample_cfg initial unreachable);
    reflexivity.
Defined.

(** After a first [connect()] that was rejected, a data operation is
    answered 500 with the [TypeError] of the read on the null [db], also by a
    server that has become reachable. *)
Example count_after_rejection :
  let s1 := fst (connectToMongo late sample_cfg initial) in
  snd (Proxy.post_count late sample_cfg (JObj [("collection", JStr "users")]) s1)
  = Ok (mkResponse 500
          (JObj [("error", JStr "Cannot read properties of null (reading 'collection')");
                 ("code", JUndef);
                 ("details", JStr "Check server logs for more information")])).
Proof. reflexivity. Qed.

(** C2.  Activation is idempotent.  With [mongoClient] set, [connectToMongo]
    returns at once and leaves the state, trace included, as it was.  Two
    calls in a row from a state without a client, with a URI the driver's
    constructor accepts, make one [connect()] call: the first call makes it,
    the second changes nothing.  Without the condition on the constructor the
    two calls make one [connect()] call at most. *)
Theorem connectToMongo_idempotent D cfg s :
  (mongoClient s <> None -> connectToMongo D cfg s = (s, Ok tt)) /\
  (mongoClient s = None ->
   new_throws D (MONGODB_URI cfg) = None ->
   let s1 := fst (connectToMongo D cfg s) in
   let s2 := fst (connectToMongo D cfg s1) in
   connect_attempts s1 = connect_attempts s + 1 /\ s2 = s1) /\
  connect_attempts (fst (connectToMongo D cfg (fst (connectToMongo D cfg s))))
    <= connect_attempts s + 1.
Proof.
  split; [apply connectToMongo_established | split].
  - intros Hc Hn. cbv zeta.
    assert (Hs : mongoClient (fst (connectToMongo D cfg s)) <> None).
    { unfold_monad. simpl. rewrite Hc, Hn. simpl.
      repeat (case_step; simpl); discriminate. }
    split.
    + unfold connect_attempts, count_events. unfold_monad. simpl.
      rewrite Hc, Hn. simpl. repeat (case_step; simpl); lia.
    + rewrite (connectToMongo_established D cfg _ Hs). reflexivity.
  - unfold connect_attempts, count_events. exec; lia.
Qed.

Lemma connectToMongo_idempotent_witness :
  connectToMongo healthy sample_cfg
    (fst (connectToMongo healthy sample_cfg initial))
  = (fst (connectToMongo healthy sample_cfg initial), Ok tt) /\
  connect_attempts (fst (connectToMongo healthy sample_cfg initial)) = 1 /\
  fst (connectToMongo healthy sample_cfg
         (fst (connectToMongo healthy sample_cfg initial)))
  = fst (connectToMongo healthy sample_cfg initial).
Proof.
  split.
  - apply (connectToMongo_idempotent healthy sample_cfg
             (fst (connectToMongo healthy sample_cfg initial))).
    simpl. discriminate.
  - apply (connectToMongo_idempotent healthy sample_cfg initial); reflexivity.
Defined.

(** ** The data operations *)

(** C3.  A data operation always answers: its handler never ends with an
    exception.  Each call into the driver that failed during the request,
    be it in activation or in the operation, makes the answer a 500 whose
    body carries the message of that error under [error]; an answer that is
    not 200 is a 500 with a message, written after a [console.error]. *)
Theorem data_operation_failures_answered D cfg r s :
  Proxy.is_data_operation r = true ->
  exists new s' resp,
    Proxy.handle D cfg r s = (s', Ok resp) /\
    events s' = new ++ events s /\
    (forall ev x, In ev new -> failure_of ev = Some x ->
       status resp = 500%Z /\ get_prop (body resp) "error" = JStr (message x)) /\
    (status resp = 200%Z \/
     status resp = 500%Z /\
     exists msg text args new0,
       get_prop (body resp) "error" = JStr msg /\
       new = EConsole Error text args :: new0).
Proof.
  intros Hr. destruct (data_operation_answers D cfg r s Hr)
    as (new & s' & resp & E & Ev & [[H200 Hn] | (x & text & args & new0 & Hx & Hc & Hf)]);
    exists new, s', resp; (split; [exact E |]); (split; [exact Ev |]); split.
  - intros ev x Hin Hfail. rewrite (Hn ev Hin) in Hfail. discriminate.
  - left. exact H200.
  - intros ev y Hin Hfail. rewrite (Hf ev y Hin Hfail). subst resp.
    destruct r; try discriminate; split; reflexivity.
  - right. subst resp. split; [reflexivity |].
    exists (message x), text, args, new0. split; [| exact Hc].
    destruct r; try discriminate; reflexivity.
Qed.

Lemma data_operation_failures_answered_witness :
  exists new s' resp,
    Proxy.handle down sample_cfg
      (Proxy.POST_insertOne (JObj [("collection", JStr "logs")])) initial
    = (s', Ok resp) /\
    events s' = new ++ events initial /\
    (forall ev x, In ev new -> failure_of ev = Some x ->
       status resp = 500%Z /\ get_prop (body resp) "error" = JStr (message x)) /\
    (status resp = 200%Z \/
     status resp = 500%Z /\
     exists msg text args new0,
       get_prop (body resp) "error" = JStr msg /\
       new = EConsole Error text args :: new0).
Proof.
  apply (data_operation_failures_answered down sample_cfg
           (Proxy.POST_insertOne (JObj [("collection", JStr "logs")])) initial).
  reflexivity.
Defined.

(** In [src/server.js] the four read operations answer a failure with the
    field [error] alone. *)
Example server_js_query_failure_body :
  snd (ServerJs.post_query down sample_cfg (JObj [("collection", JStr "users")])
         initial)
  = Ok (mkResponse 500 (JObj [("error", JStr (message unreachable))])).
Proof. reflexivity. Qed.

(** C8.  A data operation answers 200 or 500.  The body of the 500 of
    [/query], [/aggregate], [/count] and [/distinct] is the object with the
    fields [error], [code] and [details], in this order, [code] being the
    error's own code (undefined when it has none); the body of the 500 of
    [/insertOne] and [/insertMany] has the field [error] only.  A call into
    the driver that failed during the request gives the 500 of its error. *)
Theorem failure_response_shape D cfg r s :
  Proxy.is_data_operation r = true ->
  exists new s' resp,
    Proxy.handle D cfg r s = (s', Ok resp) /\
    events s' = new ++ events s /\
    (status resp = 200%Z \/
     exists x, resp = mkResponse 500 (failure_body r x) /\
       keys (body resp) =
         match r with
         | Proxy.POST_insertOne _ | Proxy.POST_insertMany _ => ["error"]
         | _ => ["error"; "code"; "details"]
         end) /\
    (forall ev x, In ev new -> failure_of ev = Some x ->
       resp = mkResponse 500 (failure_body r x)).
Proof.
  intros Hr. destruct (data_operation_answers D cfg r s Hr)
    as (new & s' & resp & E & Ev & [[H200 Hn] | (x & text & args & new0 & Hx & _ & Hf)]);
    exists new, s', resp; (split; [exact E |]); (split; [exact Ev |]); split.
  - left. exact H200.
  - intros ev x Hin Hfail. rewrite (Hn ev Hin) in Hfail. discriminate.
  - right. exists x. split; [exact Hx |]. subst resp.
    destruct r; try discriminate; reflexivity.
  - intros ev y Hin Hfail. rewrite (Hf ev y Hin Hfail). exact Hx.
Qed.

Lemma failure_response_shape_witness :
  exists new s' resp,
    Proxy.handle down sample_cfg
      (Proxy.POST_query (JObj [("collection", JStr "users")])) initial
    = (s', Ok resp) /\
    events s' = new ++ events initial /\
    (status resp = 200%Z \/
     exists x, resp = mkResponse 500 (failure_body
                 (Proxy.POST_query (JObj [("collection", JStr "users")])) x) /\
       keys (body resp) = ["error"; "code"; "details"]) /\
    (forall ev x, In ev new -> failure_of ev = Some x ->
       resp = mkResponse 500 (failure_body
                (Proxy.POST_query (JObj [("collection", JStr "users")])) x)).
Proof.
  apply (failure_response_shape down sample_cfg
           (Proxy.POST_query (JObj [("collection", JStr "users")])) initial).
  reflexivity.
Defined.

(** ** The probes *)

Lemma get_health_outcome D cfg s :
  exists new b,
    Proxy.get_health D cfg s
    = (mkState (mongoClient s) (db s) (new ++ events s), Ok (mkResponse 200 b)) /\
    count_events is_new_client new = 0 /\
    count_events is_connect new = 0 /\
    firstn 4 (keys b) = ["status"; "connected"; "database"; "timestamp"] /\
    get_prop b "connected" = JBool (not_null (db s)) /\
    get_prop b "database" = JStr (DATABASE cfg) /\
    (forall ev x, In ev new -> failure_of ev = Some x ->
       get_prop b "status" = JStr "degraded" /\
       get_prop b "ping" = JStr "failed" /\
       get_prop b "pingError" = JStr (message x)) /\
    ((forall ev, In ev new -> failure_of ev = None) ->
     get_prop b "status" = JStr "ok").
Proof.
  destruct s as [c d t]. unfold Proxy.get_health, Proxy.health_degraded.
  exec; unfold push; simpl.
  all: match goal with
       | |- exists new b, (mkState _ _ ?t', _) = _ /\ _ =>
           let n := added t' t in exists n; eexists; split; [reflexivity |]
       end.
  all: do 5 (split; [reflexivity |]); split.
  all: try (intros ev x Hin Hf; simpl in Hin;
            repeat (destruct Hin as [Hin | Hin];
                    [subst ev; simpl in Hf; try discriminate;
                     inversion Hf; subst; repeat split; reflexivity |]);
            contradiction).
  all: intros Hn; try reflexivity.
  all: try (specialize (Hn _ (or_introl eq_refl)); discriminate).
Qed.

Lemma honest_map_name l : honest (Proxy.map_name l).
Proof.
  induction l as [| c l IH]; simpl.
  - apply honest_ret.
  - apply honest_bind; [apply honest_member |]. intros n.
    apply honest_bind; [exact IH |]. intros ns. apply honest_ret.
Qed.

Lemma honest_collections_map_name v : honest (Proxy.collections_map_name v).
Proof.
  destruct v; simpl; try apply honest_throw.
  apply honest_bind; [apply honest_map_name | intros; apply honest_ret].
Qed.

Lemma ensures_ret {A} (Q : A -> Prop) (a : A) : Q a -> ensures Q (ret a).
Proof. intros H s b E. inversion E. subst. exact H. Qed.

(** A [try] block of [/diagnose]: the value it assigns on success, the
    probe entry of its error otherwise. *)
Lemma test_block (m : M jsval) :
  honest m -> ensures succeeded m ->
  forall s, exists new s1 r,
    m s = (s1, r) /\
    events s1 = new ++ events s /\
    (forall v, r = Ok v -> succeeded v) /\
    (forall ev x, In ev new -> failure_of ev = Some x -> r = Raise x).
Proof.
  intros Hh He s. destruct (Hh s) as (new & E & F). specialize (He s).
  destruct (m s) as [s1 r]; simpl in *.
  exists new, s1, r. split; [reflexivity |]. split; [assumption |].
  split; [| assumption]. intros v Hv. apply He. assumption.
Qed.

Lemma test_ping_block D : forall s, exists new s1 r,
    Proxy.test_ping D s = (s1, r) /\
    events s1 = new ++ events s /\
    (forall v, r = Ok v -> succeeded v) /\
    (forall ev x, In ev new -> failure_of ev = Some x -> r = Raise x).
Proof.
  apply test_block; unfold Proxy.test_ping.
  - honesty.
  - repeat (apply ensures_bind; intros ?). apply ensures_ret. reflexivity.
Qed.

Lemma test_listCollections_block D : forall s, exists new s1 r,
    Proxy.test_listCollections D s = (s1, r) /\
    events s1 = new ++ events s /\
    (forall v, r = Ok v -> succeeded v) /\
    (forall ev x, In ev new -> failure_of ev = Some x -> r = Raise x).
Proof.
  apply test_block; unfold Proxy.test_listCollections.
  - honesty. apply honest_collections_map_name.
  - repeat (apply ensures_bind; intros ?). apply ensures_ret. reflexivity.
Qed.

Lemma test_networkTests_block D : forall s, exists new s1 r,
    Proxy.test_networkTests D s = (s1, r) /\
    events s1 = new ++ events s /\
    (forall v, r = Ok v -> succeeded v) /\
    (forall ev x, In ev new -> failure_of ev = Some x -> r = Raise x).
Proof.
  apply test_block; unfold Proxy.test_networkTests.
  - honesty.
  - repeat (apply ensures_bind; intros ?). apply ensures_ret. reflexivity.
Qed.

Lemma get_diagnose_outcome D cfg s :
  exists new s' b,
    Proxy.get_diagnose D cfg s = (s', Ok (mkResponse 200 b)) /\
    events s' = new ++ events s /\
    match snd (connectToMongo D cfg s) with
    | Raise x => get_prop b "tests" = JObj [("connection", Proxy.failed x)]
    | Ok _ =>
        exists r2 r3 r4,
          get_prop b "tests" =
            JObj [("connection", Proxy.success);
                  ("ping", Proxy.probe r2);
                  ("listCollections", Proxy.probe r3);
                  ("networkTests", Proxy.probe r4)] /\
          forall r v, In r [r2; r3; r4] -> r = Ok v -> succeeded v
    end /\
    (forall ev x, In ev new -> failure_of ev = Some x ->
       exists k, get_prop (get_prop b "tests") k = Proxy.failed x).
Proof.
  unfold Proxy.get_diagnose, bind, get, date_now, attempt, res_json, ret.
  destruct (honest_connectToMongo D cfg s) as (n1 & E1 & F1).
  destruct (connectToMongo D cfg s) as [s1 [[] | e]]; simpl in E1, F1.
  - destruct (test_ping_block D s1) as (n2 & s2 & r2 & B2 & E2 & S2 & F2).
    destruct (test_listCollections_block D s2)
      as (n3 & s3 & r3 & B3 & E3 & S3 & F3).
    destruct (test_networkTests_block D s3)
      as (n4 & s4 & r4 & B4 & E4 & S4 & F4).
    rewrite B2, B3, B4.
    exists (n4 ++ n3 ++ n2 ++ n1). eexists. eexists.
    split; [reflexivity |]. split.
    { rewrite E4, E3, E2, E1. rewrite <- !app_assoc. reflexivity. }
    split.
    { exists r2, r3, r4. split; [reflexivity |].
      intros r v [H | [H | [H | []]]] Hr; subst r; auto. }
    intros ev x Hin Hf.
    repeat (apply in_app_or in Hin; destruct Hin as [Hin | Hin]).
    + exists "networkTests". rewrite (F4 ev x Hin Hf). reflexivity.
    + exists "listCollections". rewrite (F3 ev x Hin Hf). reflexivity.
    + exists "ping". rewrite (F2 ev x Hin Hf). reflexivity.
    + specialize (F1 ev x Hin Hf). discriminate.
  - exists n1. eexists. eexists.
    split; [reflexivity |]. split; [assumption |]. split; [reflexivity |].
    intros ev x Hin Hf. exists "connection".
    specialize (F1 ev x Hin Hf). inversion F1. reflexivity.
Qed.



(** C7.  [/health] and [/diagnose] always answer 200.  A call into the
    driver that failed during [/health] leaves the body with its first four
    fields, status degraded, ping failed and the message of the error in
    pingError; one that failed during [/diagnose] is the failed entry of one
    of the tests in the body. *)
Theorem probes_answer_200 D cfg s :
  (exists new s' b,
     Proxy.get_health D cfg s = (s', Ok (mkResponse 200 b)) /\
     events s' = new ++ events s /\
     firstn 4 (keys b) = ["status"; "connected"; "database"; "timestamp"] /\
     forall ev x, In ev new -> failure_of ev = Some x ->
       get_prop b "status" = JStr "degraded" /\
       get_prop b "ping" = JStr "failed" /\
       get_prop b "pingError" = JStr (message x)) /\
  (exists new s' b,
     Proxy.get_diagnose D cfg s = (s', Ok (mkResponse 200 b)) /\
     events s' = new ++ events s /\
     forall ev x, In ev new -> failure_of ev = Some x ->
       exists k, get_prop (get_prop b "tests") k =
                 JObj [("status", JStr "failed"); ("error", JStr (message x))]).
Proof.
  split.
  - destruct (get_health_outcome D cfg s)
      as (new & b & E & _ & _ & Hk & _ & _ & Hf & _).
    exists new. eexists. exists b. split; [exact E |].
    split; [reflexivity |]. split; assumption.
  - destruct (get_diagnose_outcome D cfg s) as (new & s' & b & E & Ev & _ & Hf).
    exists new, s', b. split; [exact E |]. split; assumption.
Qed.

Lemma probes_answer_200_witness :
  (exists new s' b,
     Proxy.get_health down sample_cfg (mkState (Some 0) (Some (0, "Saica")) [])
     = (s', Ok (mkResponse 200 b)) /\
     events s' = new ++ [] /\
     firstn 4 (keys b) = ["status"; "connected"; "database"; "timestamp"] /\
     forall ev x, In ev new -> failure_of ev = Some x ->
       get_prop b "status" = JStr "degraded" /\
       get_prop b "ping" = JStr "failed" /\
       get_prop b "pingError" = JStr (message x)) /\
  (exists new s' b,
     Proxy.get_diagnose down sample_cfg
       (mkState (Some 0) (Some (0, "Saica")) [])
     = (s', Ok (mkResponse 200 b)) /\
     events s' = new ++ [] /\
     forall ev x, In ev new -> failure_of ev = Some x ->
       exists k, get_prop (get_prop b "tests") k =
                 JObj [("status", JStr "failed"); ("error", JStr (message x))]).
Proof.
  exact (probes_answer_200 down sample_cfg (mkState (Some 0) (Some (0, "Saica")) [])).
Defined.

Lemma count_events_app p l1 l2 :
  count_events p (l1 ++ l2) = count_events p l1 + count_events p l2.
Proof. unfold count_events. rewrite filter_app, length_app. reflexivity. Qed.

(** C10.  [/health] leaves [mongoClient] and [db] as they were, constructs
    no client and calls no [connect()]; the [/health] of [src/server.js]
    leaves the whole state as it was.  With [db] null both answer 200 at
    once, status ok and connected false, and the state is untouched. *)
Theorem health_leaves_connection_state D cfg s :
  (let s' := fst (Proxy.get_health D cfg s) in
   mongoClient s' = mongoClient s /\
   db s' = db s /\
   clients_created s' = clients_created s /\
   connect_attempts s' = connect_attempts s) /\
  ServerJs.get_health cfg s
  = (s, Ok (mkResponse 200 (JObj [("status", JStr "ok");
                                  ("connected", JBool (not_null (db s)));
                                  ("database", JStr (DATABASE cfg))]))) /\
  (forall c t,
     Proxy.get_health D cfg (mkState c None t)
     = (mkState c None t,
        Ok (mkResponse 200 (JObj [("status", JStr "ok");
                                  ("connected", JBool false);
                                  ("database", JStr (DATABASE cfg));
                                  ("timestamp", JStr (toISOString D t))])))).
Proof.
  split; [| split].
  - destruct (get_health_outcome D cfg s) as (new & b & E & Hn & Hc & _).
    rewrite E. simpl. unfold clients_created, connect_attempts. simpl.
    rewrite !count_events_app, Hn, Hc. auto.
  - reflexivity.
  - intros c t. reflexivity.
Qed.

(** ** Startup *)

(** An empty [MONGODB_URI] is refused like a missing one. *)
Example main_empty_uri_exits :
  exists s, main (fun k => if k =? "MONGODB_URI" then Some "" else None)
            = Exited 1 s.
Proof. eexists. reflexivity. Qed.

(** C9.  Without [MONGODB_URI] the script prints its two error lines and
    exits with code 1; the process is over, whatever the driver, and its
    trace has no [listen].  With a non-empty [MONGODB_URI] the script calls
    [listen] on [PORT], the [PORT] of the environment or 3000, and nothing
    before it. *)
Theorem startup_requires_uri D env :
  (env "MONGODB_URI" = None ->
   exists s,
     main env = Exited 1 s /\
     boot D env = Exited 1 s /\
     events s =
       [EExit 1;
        EConsole Error "   Set it in your Render dashboard or .env file" [];
        EConsole Error "❌ ERROR: MONGODB_URI environment variable is required!" []] /\
     count_events is_listen (events s) = 0) /\
  (forall u, env "MONGODB_URI" = Some u -> u <> "" ->
   exists cfg s,
     main env = Listening cfg s /\
     events s = [EListen (PORT cfg)] /\
     PORT cfg = js_or (env_val (env "PORT")) (JNum 3000) /\
     MONGODB_URI cfg = Some u).
Proof.
  split.
  - intros H. unfold boot, main. rewrite H. simpl. eexists.
    repeat split; reflexivity.
  - intros u H Hu. unfold main. rewrite H. simpl.
    destruct (String.eqb_spec u ""); [contradiction |]. simpl.
    eexists. eexists. repeat split; reflexivity.
Qed.

Lemma startup_requires_uri_witness :
  (exists s, main (fun _ => None) = Exited 1 s /\
             count_events is_listen (events s) = 0) /\
  (exists cfg s, main sample_env = Listening cfg s /\
                 events s = [EListen (JNum 3000)]).
Proof.
  split.
  - destruct (proj1 (startup_requires_uri healthy (fun _ => None)) eq_refl)
      as (s & H1 & _ & _ & H4).
    exists s. split; assumption.
  - destruct (proj2 (startup_requires_uri healthy sample_env) _ eq_refl)
      as (cfg & s & H1 & H2 & H3 & _); [discriminate |].
    exists cfg, s. split; [assumption |]. rewrite H2, H3. reflexivity.
Defined.

(** ** The cursor of [/query] *)

Lemma post_query_cursor D cfg b s :
  exists new,
    events (fst (Proxy.post_query D cfg b s)) = new ++ events s /\
    toArray_calls_are (get_prop b "collection")
                      (spec_cursor (query_of b) (options_of b)) new.
Proof.
  unfold Proxy.post_query, spec_cursor, applied, query_of, options_of.
  exec; unfold push; simpl; give_added; toArray_calls.
Qed.

Lemma server_js_post_query_cursor D cfg b s :
  exists new,
    events (fst (ServerJs.post_query D cfg b s)) = new ++ events s /\
    toArray_calls_are (get_prop b "collection")
                      (spec_cursor (query_of b) (options_of b)) new.
Proof.
  unfold ServerJs.post_query, spec_cursor, applied, query_of, options_of.
  exec; unfold push; simpl; give_added; toArray_calls.
Qed.

Ltac unfold_body :=
  unfold db_dot, console_log, console_error, member, destructure,
    interpolated, await_op, res_json, res_status_json, try_catch, bind, ret,
    throw, get, emit.

Lemma post_query_calls_toArray D cfg b s s1 :
  connectToMongo D cfg s = (s1, Ok tt) -> db s1 <> None ->
  nullish b = false -> nullish (options_of b) = false ->
  (exists r,
     In (EOp (OpToArray (get_prop b "collection")
                        (spec_cursor (query_of b) (options_of b))) r)
        (events (fst (ServerJs.post_query D cfg b s)))) /\
  (unprintable (get_prop b "collection") = false ->
   exists r,
     In (EOp (OpToArray (get_prop b "collection")
                        (spec_cursor (query_of b) (options_of b))) r)
        (events (fst (Proxy.post_query D cfg b s)))).
Proof.
  intros Hc Hd Hb Ho. destruct s1 as [c [d |] t]; [clear Hd | simpl in Hd; congruence].
  unfold Proxy.post_query, ServerJs.post_query, spec_cursor, applied, query_of,
    options_of in *.
  split; [| intros Hp]; unfold_body; rewrite Hc; simpl; rewrite Hb; simpl;
    rewrite ?Hp; simpl; rewrite Ho; simpl;
    unfold find, cursor_sort, cursor_skip, cursor_limit; simpl;
    repeat (case_step; simpl); (eexists; simpl; auto 10).
Qed.

Lemma find_without_options D cfg (matching : jsval -> jsval -> bool)
      (docs : jsval -> list jsval) b s s1 :
  (forall t coll q,
      run_op D t (OpToArray coll (find q))
      = Ok (JArr (filter (matching q) (docs coll)))) ->
  connectToMongo D cfg s = (s1, Ok tt) -> db s1 <> None ->
  nullish b = false -> get_prop b "options" = JUndef ->
  let answer := mkResponse 200 (JArr (filter (matching (query_of b))
                                             (docs (get_prop b "collection")))) in
  snd (ServerJs.post_query D cfg b s) = Ok answer /\
  (unprintable (get_prop b "collection") = false ->
   snd (Proxy.post_query D cfg b s) = Ok answer).
Proof.
  intros HD Hc Hd Hb Ho. destruct s1 as [c [d |] t]; [clear Hd | simpl in Hd; congruence].
  unfold query_of, Proxy.post_query, ServerJs.post_query.
  split; [| intros Hp]; unfold_body; rewrite Hc; simpl; rewrite Hb, Ho; simpl;
    rewrite ?Hp; simpl; rewrite !HD; simpl; reflexivity.
Qed.

(** A [collection] that the log line cannot print: the handler of
    [src/unnamed/part_000] throws there, inside the [try], and answers 500
    without a driver call; the one of [src/server.js] has no such line. *)
Example unprintable_collection_is_a_500 :
  let b := JObj [("collection", JObj [("toString", JNum 1)])] in
  let s := mkState (Some 0) (Some (0, "Saica")) [] in
  Proxy.post_query healthy sample_cfg b s
  = (push (EConsole Error "[QUERY] Error:"
             [JStr "Cannot convert object to primitive value"]) s,
     Ok (mkResponse 500
           (JObj [("error", JStr "Cannot convert object to primitive value");
                  ("code", JUndef);
                  ("details", JStr "Check server logs for more information")]))) /\
  snd (ServerJs.post_query healthy sample_cfg b s)
  = Ok (mkResponse 200 (answer (OpToArray (JObj [("toString", JNum 1)]) (find (JObj []))))).
Proof. split; reflexivity. Qed.

(** A [skip] and a [limit] of 0 are not applied. *)
Example zero_is_no_restriction :
  spec_cursor (JObj []) (JObj [("skip", JNum 0); ("limit", JNum 0)])
  = find (JObj []) /\
  snd (Proxy.post_query in_memory sample_cfg
         (JObj [("collection", JStr "users");
                ("options", JObj [("skip", JNum 0); ("limit", JNum 0)])])
         (mkState (Some 0) (Some (0, "Saica")) []))
  = Ok (mkResponse 200 (JArr users)).
Proof. split; reflexivity. Qed.

(** C6.  In both files every [toArray] call of [/query] is made on the
    cursor of [find(query)] with [sort], [skip] and [limit] applied exactly
    when [options] holds a truthy value for them.  After an activation that
    succeeded the handler makes that call, for a body and options that are
    not null; on a driver whose unmodified cursor yields the documents of
    the collection that match, in stored order, a request without [options]
    is then answered 200 with exactly these documents.  The handler of
    [src/unnamed/part_000] does both for a [collection] that its log line
    can print, a string as in every valid request; it throws at that line
    otherwise. *)
Theorem query_applies_truthy_options D cfg b s :
  (exists new,
     events (fst (Proxy.post_query D cfg b s)) = new ++ events s /\
     toArray_calls_are (get_prop b "collection")
                       (spec_cursor (query_of b) (options_of b)) new) /\
  (exists new,
     events (fst (ServerJs.post_query D cfg b s)) = new ++ events s /\
     toArray_calls_are (get_prop b "collection")
                       (spec_cursor (query_of b) (options_of b)) new) /\
  (forall s1,
     connectToMongo D cfg s = (s1, Ok tt) -> db s1 <> None ->
     nullish b = false -> nullish (options_of b) = false ->
     (exists r,
        In (EOp (OpToArray (get_prop b "collection")
                           (spec_cursor (query_of b) (options_of b))) r)
           (events (fst (ServerJs.post_query D cfg b s)))) /\
     (unprintable (get_prop b "collection") = false ->
      exists r,
        In (EOp (OpToArray (get_prop b "collection")
                           (spec_cursor (query_of b) (options_of b))) r)
           (events (fst (Proxy.post_query D cfg b s))))) /\
  (forall (matching : jsval -> jsval -> bool) (docs : jsval -> list jsval) s1,
     (forall t coll q,
         run_op D t (OpToArray coll (find q))
         = Ok (JArr (filter (matching q) (docs coll)))) ->
     connectToMongo D cfg s = (s1, Ok tt) -> db s1 <> None ->
     nullish b = false -> get_prop b "options" = JUndef ->
     let answer := mkResponse 200 (JArr (filter (matching (query_of b))
                                                (docs (get_prop b "collection")))) in
     snd (ServerJs.post_query D cfg b s) = Ok answer /\
     (unprintable (get_prop b "collection") = false ->
      snd (Proxy.post_query D cfg b s) = Ok answer)).
Proof.
  split; [apply post_query_cursor |].
  split; [apply server_js_post_query_cursor |].
  split.
  - intros s1. apply post_query_calls_toArray.
  - intros matching docs s1. apply find_without_options.
Qed.

Lemma query_applies_truthy_options_witness :
  let b := JObj [("collection", JStr "users");
                 ("query", JObj [("role", JStr "admin")])] in
  let admins :=
    JArr [JObj [("_id", JNum 1); ("name", JStr "ada"); ("role", JStr "admin")];
          JObj [("_id", JNum 3); ("name", JStr "cy"); ("role", JStr "admin")]] in
  snd (Proxy.post_query in_memory sample_cfg b initial) = Ok (mkResponse 200 admins) /\
  snd (ServerJs.post_query in_memory sample_cfg b initial) = Ok (mkResponse 200 admins) /\
  (exists r,
     In (EOp (OpToArray (JStr "users")
                        (spec_cursor (JObj [("role", JStr "admin")]) (JObj []))) r)
        (events (fst (Proxy.post_query in_memory sample_cfg b initial)))) /\
  (exists r,
     In (EOp (OpToArray (JStr "users")
                        (spec_cursor (JObj [("role", JStr "admin")]) (JObj []))) r)
        (events (fst (ServerJs.post_query in_memory sample_cfg b initial)))).
Proof.
  intros b admins.
  destruct (query_applies_truthy_options in_memory sample_cfg b initial)
    as (_ & _ & Hcall & Hfind).
  destruct (Hfind matches store (fst (connectToMongo in_memory sample_cfg initial)))
    as (Hs & Hp); try reflexivity; try (simpl; discriminate).
  destruct (Hcall (fst (connectToMongo in_memory sample_cfg initial)))
    as (Cs & Cp); try reflexivity; try (simpl; discriminate).
  split; [apply Hp; reflexivity |]. split; [exact Hs |].
  split; [apply Cp; reflexivity | exact Cs].
Defined.

(** ** Handles that are set *)

Lemma settled_ret {A} (a : A) : settled (ret a).
Proof. intros s _. split; reflexivity. Qed.

Lemma settled_throw {A} (e : exn) : settled (@throw A e).
Proof. intros s _. split; reflexivity. Qed.

Lemma settled_get : settled get.
Proof. intros s _. split; reflexivity. Qed.

Lemma settled_bind {A B} (m : M A) (k : A -> M B) :
  settled m -> (forall a, settled (k a)) -> settled (bind m k).
Proof.
  intros Hm Hk s Hs. unfold bind. destruct (Hm s Hs) as (H1 & H2).
  destruct (m s) as [s1 [a | e]]; simpl in *; [| auto].
  assert (Hs1 : mongoClient s1 <> None) by congruence.
  destruct (Hk a s1 Hs1) as (H3 & H4). split; congruence.
Qed.

Lemma settled_try_catch {A} (m : M A) (h : exn -> M A) :
  settled m -> (forall e, settled (h e)) -> settled (try_catch m h).
Proof.
  intros Hm Hh s Hs. unfold try_catch. destruct (Hm s Hs) as (H1 & H2).
  destruct (m s) as [s1 [a | e]]; simpl in *; [auto |].
  assert (Hs1 : mongoClient s1 <> None) by congruence.
  destruct (Hh e s1 Hs1) as (H3 & H4). split; congruence.
Qed.

Lemma settled_attempt {A} (m : M A) : settled m -> settled (attempt m).
Proof.
  intros Hm s Hs. unfold attempt. specialize (Hm s Hs).
  destruct (m s) as [s1 r]; assumption.
Qed.

Lemma settled_push {A} (f : state -> event) (g : state -> result A) :
  settled (fun s => (push (f s) s, g s)).
Proof. intros s _. split; reflexivity. Qed.

Lemma settled_console_log text args : settled (console_log text args).
Proof. intros s _. split; reflexivity. Qed.

Lemma settled_console_error text args : settled (console_error text args).
Proof. intros s _. split; reflexivity. Qed.

Lemma settled_member v k : settled (member v k).
Proof. unfold member. destruct (nullish v); [apply settled_throw | apply settled_ret]. Qed.

Lemma settled_interpolated v : settled (interpolated v).
Proof.
  unfold interpolated.
  destruct (unprintable v); [apply settled_throw | apply settled_ret].
Qed.

Lemma settled_destructure v k : settled (destructure v k).
Proof.
  unfold destructure. destruct (nullish v); [apply settled_throw | apply settled_ret].
Qed.

Lemma settled_db_dot k : settled (db_dot k).
Proof.
  unfold db_dot. apply settled_bind; [apply settled_get |].
  intros s. destruct (db s); [apply settled_ret | apply settled_throw].
Qed.

Lemma settled_date_now D : settled (date_now D).
Proof. intros s _. split; reflexivity. Qed.

Lemma settled_await_op D o : settled (await_op D o).
Proof. intros s _. split; reflexivity. Qed.

Lemma settled_connectToMongo D cfg : settled (connectToMongo D cfg).
Proof.
  intros [[c |] d t] Hs; simpl in *; [split; reflexivity | congruence].
Qed.

Lemma settled_map_name l : settled (Proxy.map_name l).
Proof.
  induction l as [| c l IH]; simpl.
  - apply settled_ret.
  - apply settled_bind; [apply settled_member |]. intros n.
    apply settled_bind; [exact IH |]. intros ns. apply settled_ret.
Qed.

Lemma settled_collections_map_name v : settled (Proxy.collections_map_name v).
Proof.
  destruct v; simpl; try apply settled_throw.
  apply settled_bind; [apply settled_map_name | intros; apply settled_ret].
Qed.

Ltac settle :=
  repeat match goal with
    | |- settled (bind _ _) => apply settled_bind; [| intros ?]
    | |- settled (try_catch _ _) => apply settled_try_catch; [| intros ?]
    | |- settled (attempt _) => apply settled_attempt
    | |- settled (connectToMongo _ _) => apply settled_connectToMongo
    | |- settled (ret _) => apply settled_ret
    | |- settled (throw _) => apply settled_throw
    | |- settled get => apply settled_get
    | |- settled (res_json _) => apply settled_ret
    | |- settled (res_status_json _ _) => apply settled_ret
    | |- settled (console_log _ _) => apply settled_console_log
    | |- settled (console_error _ _) => apply settled_console_error
    | |- settled (member _ _) => apply settled_member
    | |- settled (interpolated _) => apply settled_interpolated
    | |- settled (destructure _ _) => apply settled_destructure
    | |- settled (db_dot _) => apply settled_db_dot
    | |- settled (date_now _) => apply settled_date_now
    | |- settled (await_op _ _) => apply settled_await_op
    | |- settled (Proxy.collections_map_name _) =>
        apply settled_collections_map_name
    | |- settled (match ?x with _ => _ end) => destruct x
    | |- settled (let _ := _ in _) => cbv zeta
    end.

Ltac unfold_handlers :=
  unfold Proxy.get_health, Proxy.get_diagnose, Proxy.post_query,
    Proxy.post_aggregate, Proxy.post_count, Proxy.post_distinct,
    Proxy.post_insertOne, Proxy.post_insertMany, Proxy.test_ping,
    Proxy.test_listCollections, Proxy.test_networkTests.

Lemma settled_handle D cfg r : settled (Proxy.handle D cfg r).
Proof. destruct r; simpl; unfold_handlers; settle. Qed.

(** X1.  Once [mongoClient] is set, no request handler writes to
    [mongoClient] or [db] again: both handles after a request are the ones
    before it, whatever the request and the driver. *)
Theorem handles_are_written_once D cfg r s :
  mongoClient s <> None ->
  mongoClient (fst (Proxy.handle D cfg r s)) = mongoClient s /\
  db (fst (Proxy.handle D cfg r s)) = db s.
Proof. apply settled_handle. Qed.

Lemma handles_are_written_once_witness :
  mongoClient (fst (Proxy.handle healthy sample_cfg Proxy.GET_diagnose
                      (mkState (Some 0) None []))) = Some 0 /\
  db (fst (Proxy.handle healthy sample_cfg Proxy.GET_diagnose
             (mkState (Some 0) None []))) = None.
Proof.
  apply (handles_are_written_once healthy sample_cfg Proxy.GET_diagnose
           (mkState (Some 0) None [])).
  simpl. discriminate.
Defined.

(** ** No driver operation without [db] *)

Lemma ops_of_app a b : ops_of (a ++ b) = ops_of a ++ ops_of b.
Proof.
  induction a as [| e a IH]; simpl; [reflexivity |].
  destruct e; simpl; rewrite IH; reflexivity.
Qed.

Lemma guarded_quiet {A} (m : M A) :
  (forall s, fst (m s) = s) -> guarded m.
Proof.
  intros H s. rewrite H. split; [auto |]. exists []. split; [reflexivity | auto].
Qed.

Lemma guarded_ret {A} (a : A) : guarded (ret a).
Proof. apply guarded_quiet. reflexivity. Qed.

Lemma guarded_throw {A} (e : exn) : guarded (@throw A e).
Proof. apply guarded_quiet. reflexivity. Qed.

Lemma guarded_get : guarded get.
Proof. apply guarded_quiet. reflexivity. Qed.

Lemma guarded_date_now D : guarded (date_now D).
Proof. apply guarded_quiet. reflexivity. Qed.

Lemma guarded_interpolated v : guarded (interpolated v).
Proof.
  apply guarded_quiet. intros s. unfold interpolated.
  destruct (unprintable v); reflexivity.
Qed.

Lemma guarded_destructure v k : guarded (destructure v k).
Proof.
  apply guarded_quiet. intros s. unfold destructure.
  destruct (nullish v); reflexivity.
Qed.

Lemma guarded_console_log text args : guarded (console_log text args).
Proof.
  intros s. simpl. split; [auto |].
  exists [EConsole Log text args]. split; [reflexivity | auto].
Qed.

Lemma guarded_console_error text args : guarded (console_error text args).
Proof.
  intros s. simpl. split; [auto |].
  exists [EConsole Error text args]. split; [reflexivity | auto].
Qed.

Lemma guarded_bind {A B} (m : M A) (k : A -> M B) :
  guarded m -> (forall a, guarded (k a)) -> guarded (bind m k).
Proof.
  intros Hm Hk s. unfold bind. destruct (Hm s) as (M1 & n1 & E1 & O1).
  destruct (m s) as [s1 [a | e]]; simpl in *.
  - destruct (Hk a s1) as (M2 & n2 & E2 & O2). split; [auto |].
    exists (n2 ++ n1). split; [rewrite E2, E1; apply app_assoc |].
    intros Hn. rewrite ops_of_app, (O2 Hn). simpl. apply O1.
    destruct (db s1) eqn:Ed; [| reflexivity].
    exfalso. apply M2; [discriminate | assumption].
  - split; [assumption |]. exists n1. split; assumption.
Qed.

Lemma guarded_try_catch {A} (m : M A) (h : exn -> M A) :
  guarded m -> (forall e, guarded (h e)) -> guarded (try_catch m h).
Proof.
  intros Hm Hh s. unfold try_catch. destruct (Hm s) as (M1 & n1 & E1 & O1).
  destruct (m s) as [s1 [a | e]]; simpl in *.
  - split; [assumption |]. exists n1. split; assumption.
  - destruct (Hh e s1) as (M2 & n2 & E2 & O2). split; [auto |].
    exists (n2 ++ n1). split; [rewrite E2, E1; apply app_assoc |].
    intros Hn. rewrite ops_of_app, (O2 Hn). simpl. apply O1.
    destruct (db s1) eqn:Ed; [| reflexivity].
    exfalso. apply M2; [discriminate | assumption].
Qed.

Lemma guarded_attempt {A} (m : M A) : guarded m -> guarded (attempt m).
Proof.
  intros Hm s. unfold attempt. specialize (Hm s).
  destruct (m s) as [s1 r]; assumption.
Qed.

Lemma live_quiet {A} (m : M A) : (forall s, fst (m s) = s) -> live m.
Proof. intros H s Hd. rewrite H. split; [assumption |]. exists []. reflexivity. Qed.

Lemma live_push {A} (m : M A) (e : state -> event) :
  (forall s, fst (m s) = push (e s) s) -> live m.
Proof.
  intros H s Hd. rewrite H. split; [assumption |]. exists [e s]. reflexivity.
Qed.

Lemma live_bind {A B} (m : M A) (k : A -> M B) :
  live m -> (forall a, live (k a)) -> live (bind m k).
Proof.
  intros Hm Hk s Hd. unfold bind. destruct (Hm s Hd) as (D1 & n1 & E1).
  destruct (m s) as [s1 [a | e]]; simpl in *.
  - destruct (Hk a s1 D1) as (D2 & n2 & E2). split; [assumption |].
    exists (n2 ++ n1). rewrite E2, E1. apply app_assoc.
  - split; [assumption |]. exists n1. assumption.
Qed.

Lemma live_member v k : live (member v k).
Proof. apply live_quiet. intros s. unfold member. destruct (nullish v); reflexivity. Qed.

Lemma live_interpolated v : live (interpolated v).
Proof.
  apply live_quiet. intros s. unfold interpolated.
  destruct (unprintable v); reflexivity.
Qed.

Lemma live_db_dot k : live (db_dot k).
Proof.
  apply live_quiet. intros s. unfold db_dot, bind, get. destruct (db s); reflexivity.
Qed.

Lemma live_await_op D o : live (await_op D o).
Proof. apply (live_push _ (fun s => EOp o (run_op D (events s) o))). reflexivity. Qed.

Lemma live_console_log text args : live (console_log text args).
Proof. apply (live_push _ (fun _ => EConsole Log text args)). reflexivity. Qed.

Lemma live_ret {A} (a : A) : live (ret a).
Proof. apply live_quiet. reflexivity. Qed.

Lemma live_map_name l : live (Proxy.map_name l).
Proof.
  induction l as [| c l IH]; simpl.
  - apply live_ret.
  - apply live_bind; [apply live_member |]. intros n.
    apply live_bind; [exact IH |]. intros ns. apply live_ret.
Qed.

Lemma live_collections_map_name v : live (Proxy.collections_map_name v).
Proof.
  destruct v; simpl; try (apply live_quiet; reflexivity).
  apply live_bind; [apply live_map_name | intros; apply live_ret].
Qed.

Ltac living :=
  repeat match goal with
    | |- live (bind _ _) => apply live_bind; [| intros ?]
    | |- live (ret _) => apply live_ret
    | |- live (res_json _) => apply live_ret
    | |- live (member _ _) => apply live_member
    | |- live (interpolated _) => apply live_interpolated
    | |- live (db_dot _) => apply live_db_dot
    | |- live (await_op _ _) => apply live_await_op
    | |- live (console_log _ _) => apply live_console_log
    | |- live (Proxy.collections_map_name _) => apply live_collections_map_name
    | |- live (let _ := _ in _) => cbv zeta
    end.

(** [db.k(...)] and what follows it in the [try] block: the read of [k]
    throws when [db] is null, before the driver is called. *)
Lemma guarded_after_db_dot {A} k (rest : M A) :
  live rest -> guarded (bind (db_dot k) (fun _ => rest)).
Proof.
  intros Hr [c [d |] t]; unfold bind, db_dot, get; simpl.
  - destruct (Hr (mkState c (Some d) t)) as (D1 & n1 & E1); [discriminate |].
    split; [auto |]. exists n1. split; [assumption |].
    intros Hn. contradiction.
  - split; [auto |]. exists []. split; [reflexivity | auto].
Qed.

Lemma guarded_connectToMongo D cfg : guarded (connectToMongo D cfg).
Proof.
  intros [c d t]. exec; unfold push; simpl;
    (split; [intros; try assumption; try discriminate |]);
    (match goal with
     | |- exists new, ?t' = new ++ ?base /\ _ =>
         let n := added t' base in exists n; split; [reflexivity | auto]
     end).
Qed.

Ltac guarding :=
  repeat match goal with
    | |- guarded (bind (db_dot _) _) => apply guarded_after_db_dot; living
    | |- guarded (bind _ _) => apply guarded_bind; [| intros ?]
    | |- guarded (try_catch _ _) => apply guarded_try_catch; [| intros ?]
    | |- guarded (attempt _) => apply guarded_attempt
    | |- guarded (connectToMongo _ _) => apply guarded_connectToMongo
    | |- guarded (ret _) => apply guarded_ret
    | |- guarded (throw _) => apply guarded_throw
    | |- guarded get => apply guarded_get
    | |- guarded (res_json _) => apply guarded_ret
    | |- guarded (res_status_json _ _) => apply guarded_ret
    | |- guarded (console_log _ _) => apply guarded_console_log
    | |- guarded (console_error _ _) => apply guarded_console_error
    | |- guarded (destructure _ _) => apply guarded_destructure
    | |- guarded (interpolated _) => apply guarded_interpolated
    | |- guarded (date_now _) => apply guarded_date_now
    | |- guarded (match ?x with _ => _ end) => destruct x
    | |- guarded (let _ := _ in _) => cbv zeta
    end.

Lemma guarded_handle D cfg r : guarded (Proxy.handle D cfg r).
Proof. destruct r; simpl; unfold_handlers; guarding. Qed.

(** X2.  No handler calls a driver operation while [db] is null: a request
    never resets [db] to null, and a request that ends with [db] null has
    called none of ping, listCollections, countDocuments, findOne, toArray,
    aggregate, distinct, insertOne, insertMany. *)
Theorem no_operation_without_db D cfg r s :
  (db s <> None -> db (fst (Proxy.handle D cfg r s)) <> None) /\
  exists new,
    events (fst (Proxy.handle D cfg r s)) = new ++ events s /\
    (db (fst (Proxy.handle D cfg r s)) = None -> ops_of new = []).
Proof. apply guarded_handle. Qed.

Lemma no_operation_without_db_witness :
  exists new,
    events (fst (Proxy.handle down sample_cfg
                   (Proxy.POST_count (JObj [("collection", JStr "users")]))
                   initial)) = new ++ [] /\
    ops_of new = [].
Proof.
  destruct (no_operation_without_db down sample_cfg
              (Proxy.POST_count (JObj [("collection", JStr "users")])) initial)
    as (_ & new & E & H).
  exists new. split; [exact E | apply H; reflexivity].
Defined.

(** ** A client without [db] *)

Lemma data_operation_on_null_db D cfg r s :
  Proxy.is_data_operation r = true -> not_ready s ->
  exists x new,
    Proxy.handle D cfg r s
    = (mkState (mongoClient s) None (new ++ events s),
       Ok (mkResponse 500 (failure_body r x))) /\
    (x = read_of_nullish JNull "collection" \/
     x = destructure_of_nullish (body_of r) "collection" \/
     x = not_primitive) /\
    ops_of new = [] /\
    count_events is_connect new = 0 /\
    count_events is_new_client new = 0.
Proof.
  destruct s as [[c |] [d |] t]; intros Hr [Hc Hd]; simpl in *;
    try congruence.
  destruct r as [| | b | b | b | b | b | b]; try discriminate; simpl;
    unfold_handlers; unfold_monad; unfold push; simpl;
    repeat (case_step; simpl);
    first [ exists (destructure_of_nullish b "collection");
            match goal with
            | |- exists new, (mkState _ _ ?t', _) = _ /\ _ =>
                let n := added t' t in exists n
            end;
            (split; [reflexivity |]); (split; [auto |]);
            repeat split; reflexivity
          | exists (read_of_nullish JNull "collection");
            match goal with
            | |- exists new, (mkState _ _ ?t', _) = _ /\ _ =>
                let n := added t' t in exists n
            end;
            (split; [reflexivity |]); (split; [auto |]);
            repeat split; reflexivity
          | exists not_primitive;
            match goal with
            | |- exists new, (mkState _ _ ?t', _) = _ /\ _ =>
                let n := added t' t in exists n
            end;
            (split; [reflexivity |]); (split; [auto |]);
            repeat split; reflexivity ].
Qed.




Lemma begin_connect_not_ready D cfg s :
  mongoClient s = None -> db s = None ->
  new_throws D (MONGODB_URI cfg) = None ->
  begin_connect D cfg s
  = (mkState (Some (clients_created s)) None (connecting cfg s),
     Ok (Some (clients_created s))).
Proof.
  destruct s as [c d t]. simpl. intros Hc Hd Hn. subst c d.
  unfold begin_connect, connecting. unfold_monad. simpl. rewrite Hn. reflexivity.
Qed.

(** X4.  While the first [connect()] is awaited, the client is already set:
    a data operation that is served in that window finds the guard of
    [connectToMongo] closed and [db] null.  It calls no driver operation and
    no [connect()], leaves the handles as they are and is answered 500 with
    a [TypeError] instead of waiting for the connection. *)
Theorem request_during_connect_fails D cfg r s :
  mongoClient s = None -> db s = None ->
  new_throws D (MONGODB_URI cfg) = None ->
  Proxy.is_data_operation r = true ->
  let s1 := fst (begin_connect D cfg s) in
  exists x new,
    Proxy.handle D cfg r s1
    = (mkState (mongoClient s1) None (new ++ events s1),
       Ok (mkResponse 500 (failure_body r x))) /\
    ename x = "TypeError" /\
    ops_of new = [] /\
    count_events is_connect new = 0.
Proof.
  intros Hc Hd Hn Hr. cbv zeta.
  rewrite (begin_connect_not_ready D cfg s Hc Hd Hn). simpl.
  destruct (data_operation_on_null_db D cfg r
              (mkState (Some (clients_created s)) None (connecting cfg s)) Hr)
    as (x & new & E & Hx & Ho & Hk & _).
  { split; [discriminate | reflexivity]. }
  exists x, new. split; [exact E |]. split; [| split; assumption].
  destruct Hx as [Hx | [Hx | Hx]]; subst x; reflexivity.
Qed.

Lemma request_during_connect_fails_witness :
  let s1 := fst (begin_connect healthy sample_cfg initial) in
  exists x new,
    Proxy.handle healthy sample_cfg
      (Proxy.POST_count (JObj [("collection", JStr "users")])) s1
    = (mkState (mongoClient s1) None (new ++ events s1),
       Ok (mkResponse 500
             (failure_body (Proxy.POST_count (JObj [("collection", JStr "users")])) x))) /\
    ename x = "TypeError" /\
    ops_of new = [] /\
    count_events is_connect new = 0.
Proof.
  apply (request_during_connect_fails healthy sample_cfg
           (Proxy.POST_count (JObj [("collection", JStr "users")])) initial);
    reflexivity.
Defined.

(** X5.  With a client set and [db] null, [/diagnose] reports the
    connection test as a success, since [connectToMongo] returns at its
    guard, and the three other tests as failed with the [TypeError] of the
    read on null; it calls the driver for none of them and leaves the state
    as it was. *)
Theorem diagnose_on_null_db D cfg s :
  not_ready s ->
  exists b,
    Proxy.get_diagnose D cfg s = (s, Ok (mkResponse 200 b)) /\
    get_prop b "tests" =
      JObj [("connection", JObj [("status", JStr "success")]);
            ("ping", Proxy.failed (read_of_nullish JNull "admin"));
            ("listCollections",
             Proxy.failed (read_of_nullish JNull "listCollections"));
            ("networkTests", Proxy.failed (read_of_nullish JNull "collection"))] /\
    get_prop b "connection" =
      JObj [("clientInitialized", JBool true); ("dbInitialized", JBool false)].
Proof.
  destruct s as [[c |] [d |] t]; intros [Hc Hd]; simpl in *; try congruence.
  unfold_handlers. unfold_monad. simpl.
  eexists. split; [reflexivity |]. split; reflexivity.
Qed.

Lemma diagnose_on_null_db_witness :
  exists b,
    Proxy.get_diagnose late sample_cfg (fst (connectToMongo late sample_cfg initial))
    = (fst (connectToMongo late sample_cfg initial), Ok (mkResponse 200 b)) /\
    get_prop (get_prop (get_prop b "tests") "connection") "status" = JStr "success" /\
    get_prop (get_prop (get_prop b "tests") "ping") "status" = JStr "failed".
Proof.
  destruct (diagnose_on_null_db late sample_cfg
              (fst (connectToMongo late sample_cfg initial)))
    as (b & E & Ht & _).
  - split; [discriminate | reflexivity].
  - exists b. split; [exact E |]. rewrite Ht. split; reflexivity.
Defined.

(** ** Shutdown and startup *)

Lemma deliver_exited D l : forall n s,
  fold_left (deliver D) l (Exited n s) = Exited n s.
Proof. induction l as [| i l IH]; intros n s; simpl; [reflexivity | apply IH]. Qed.

(** X6.  On SIGINT, when [close()] does not reject, the process exits with
    code 0 and serves nothing that is delivered after it.  [close()] is
    called once, on the client, exactly when [mongoClient] is set, also when
    [db] is still null; the handles themselves are not reset. *)
Theorem sigint_closes_and_exits D cfg s l :
  close_rejects D (shutting_down s) = None ->
  exists new,
    fold_left (deliver D) (SIGINT :: l) (Listening cfg s)
    = Exited 0 (mkState (mongoClient s) (db s) (EExit 0 :: new ++ events s)) /\
    new = match mongoClient s with
          | Some c => [EConsole Log "MongoDB connection closed" [];
                       EClose c None;
                       EConsole Log "Shutting down..." []]
          | None => [EConsole Log "Shutting down..." []]
          end.
Proof.
  destruct s as [[c |] d t]; unfold shutting_down; simpl; intros Hc;
    unfold_monad; simpl; rewrite ?Hc; simpl; rewrite deliver_exited;
    eexists; (split; [| reflexivity]); reflexivity.
Qed.

Lemma sigint_closes_and_exits_witness :
  exists new,
    fold_left (deliver healthy)
      [SIGINT; Request Proxy.GET_health]
      (Listening sample_cfg (mkState (Some 0) None []))
    = Exited 0 (mkState (Some 0) None (EExit 0 :: new ++ [])) /\
    new = [EConsole Log "MongoDB connection closed" [];
           EClose 0 None;
           EConsole Log "Shutting down..." []].
Proof.
  apply (sigint_closes_and_exits healthy sample_cfg (mkState (Some 0) None [])
           [Request Proxy.GET_health]).
  reflexivity.
Defined.

(** X7.  When [close()] rejects, the SIGINT handler ends with that
    rejection: it has no [try], so [process.exit(0)] is not reached and the
    trace gets no exit. *)
Theorem sigint_close_rejection_skips_exit D s c e :
  mongoClient s = Some c ->
  close_rejects D (shutting_down s) = Some e ->
  exists s',
    on_SIGINT D s = (s', Raise e) /\
    events s' = EClose c (Some e) :: shutting_down s /\
    count_events is_exit (events s') = count_events is_exit (events s).
Proof.
  destruct s as [c0 d t]; unfold shutting_down; simpl; intros Hc Hr. subst c0.
  unfold_monad. simpl. rewrite Hr. simpl. eexists.
  split; [reflexivity |]. split; reflexivity.
Qed.

Lemma sigint_close_rejection_skips_exit_witness :
  exists s',
    on_SIGINT (mkDriver (fun _ => None) (fun _ => None) (fun _ => None)
                        (fun _ o => Ok (answer o)) (fun _ => Some unreachable)
                        (fun _ => "") "")
              (mkState (Some 0) (Some (0, "Saica")) [])
    = (s', Raise unreachable) /\
    events s' = [EClose 0 (Some unreachable); EConsole Log "Shutting down..." []] /\
    count_events is_exit (events s') = 0.
Proof.
  apply (sigint_close_rejection_skips_exit
           (mkDriver (fun _ => None) (fun _ => None) (fun _ => None)
                     (fun _ o => Ok (answer o)) (fun _ => Some unreachable)
                     (fun _ => "") "")
           (mkState (Some 0) (Some (0, "Saica")) []) 0 unreachable);
    reflexivity.
Defined.

Lemma listen_callback_outcome D cfg s :
  exists new s',
    listen_callback D cfg s = (s', Ok tt) /\
    events s' = new ++ events s /\
    count_events is_listen new = 0 /\
    count_events is_exit new = 0 /\
    forall ev x, In ev new -> failure_of ev = Some x ->
      exists rest,
        new = EConsole Error "   Check your MONGODB_URI" []
                :: EConsole Error "❌ Failed to connect to MongoDB:" [JStr (message x)]
                :: rest.
Proof.
  destruct s as [c d t]. unfold listen_callback. exec; unfold push; simpl;
    match goal with
    | |- exists new s', (mkState ?c' ?d' ?t', _) = _ /\ _ =>
        let n := added t' t in exists n, (mkState c' d' t')
    end;
    (split; [reflexivity |]); (split; [reflexivity |]);
    (split; [reflexivity |]); (split; [reflexivity |]);
    intros ev x Hin Hf; simpl in Hin;
    repeat (destruct Hin as [Hin | Hin];
            [subst ev; simpl in Hf; try discriminate;
             inversion Hf; subst; eexists; reflexivity |]);
    contradiction.
Qed.

(** X8.  A connection that fails at startup does not stop the server: with
    a non-empty [MONGODB_URI] the process listens after the listen callback,
    whatever the driver does; the callback catches the error and prints its
    message with the hint to check [MONGODB_URI]. *)
Theorem startup_survives_connection_failure D env u :
  env "MONGODB_URI" = Some u -> u <> "" ->
  exists cfg s,
    boot D env = Listening cfg s /\
    count_events is_listen (events s) = 1 /\
    count_events is_exit (events s) = 0 /\
    forall ev x, In ev (events s) -> failure_of ev = Some x ->
      exists rest,
        events s =
          EConsole Error "   Check your MONGODB_URI" []
            :: EConsole Error "❌ Failed to connect to MongoDB:" [JStr (message x)]
            :: rest.
Proof.
  intros H Hu. unfold boot, main. rewrite H. simpl.
  destruct (String.eqb_spec u ""); [contradiction |]. simpl.
  match goal with
  | |- context [listen_callback D ?cfg ?s0] =>
      destruct (listen_callback_outcome D cfg s0)
        as (new & s' & E & Ev & Hl & He & Hf); rewrite E
  end.
  eexists. exists s'. split; [reflexivity |]. simpl in Ev. rewrite Ev.
  rewrite !count_events_app, Hl, He. split; [reflexivity |].
  split; [reflexivity |].
  intros ev x Hin Hfail. apply in_app_or in Hin. destruct Hin as [Hin | Hin].
  - destruct (Hf ev x Hin Hfail) as (rest & Hr). rewrite Hr. simpl.
    eexists. reflexivity.
  - simpl in Hin. destruct Hin as [Hin | []]. subst ev. discriminate.
Qed.

Lemma startup_survives_connection_failure_witness :
  exists cfg s,
    boot down sample_env = Listening cfg s /\
    count_events is_listen (events s) = 1 /\
    count_events is_exit (events s) = 0.
Proof.
  destruct (startup_survives_connection_failure down sample_env
              "mongodb+srv://user:pw@cluster0.example.net/Saica" eq_refl)
    as (cfg & s & E & Hl & He & _); [discriminate |].
  exists cfg, s. auto.
Defined.

(** ** The data operations of [src/server.js] *)

(** X9.  In [src/server.js] every data operation always answers: its
    handler never ends with an exception, and a call into the driver that
    failed during the request makes the answer a 500 whose body is the field
    [error] alone, with the message of that error. *)
Theorem server_js_failures_answered D cfg r h s :
  Proxy.is_data_operation r = true ->
  server_js_handle D cfg r = Some h ->
  exists new s' resp,
    h s = (s', Ok resp) /\
    events s' = new ++ events s /\
    (status resp = 200%Z \/ exists x, resp = mkResponse 500 (server_js_failure_body x)) /\
    (forall ev x, In ev new -> failure_of ev = Some x ->
       resp = mkResponse 500 (server_js_failure_body x)).
Proof.
  intros Hr Hh.
  assert (H : exists text args body,
             honest body /\ ensures (fun r => status r = 200%Z) body /\
             h = try_catch body (fun error => console_error text (args error) ;;
                                   res_status_json 500 (server_js_failure_body error))).
  { destruct r; try discriminate; simpl in Hh; inversion Hh; subst h;
      (do 3 eexists; split; [| split; [| reflexivity]]; [honesty | answers_200]). }
  destruct H as (text & args & body & Hb & H200 & E). subst h.
  destruct (try_catch_answers body text args server_js_failure_body Hb H200 s)
    as (new & s' & resp & E' & Ev & [[H2 Hn] | (x & new0 & Hx & _ & Hf)]);
    exists new, s', resp; (split; [exact E' |]); (split; [exact Ev |]); split.
  - left. exact H2.
  - intros ev x Hin Hfail. rewrite (Hn ev Hin) in Hfail. discriminate.
  - right. exists x. exact Hx.
  - intros ev y Hin Hfail. rewrite (Hf ev y Hin Hfail). exact Hx.
Qed.

Lemma server_js_failures_answered_witness :
  exists new s' resp,
    ServerJs.post_count down sample_cfg (JObj [("collection", JStr "users")]) initial
    = (s', Ok resp) /\
    events s' = new ++ [] /\
    (status resp = 200%Z \/ exists x, resp = mkResponse 500 (server_js_failure_body x)) /\
    (forall ev x, In ev new -> failure_of ev = Some x ->
       resp = mkResponse 500 (server_js_failure_body x)).
Proof.
  apply (server_js_failures_answered down sample_cfg
           (Proxy.POST_count (JObj [("collection", JStr "users")]))
           (ServerJs.post_count down sample_cfg (JObj [("collection", JStr "users")]))
           initial); reflexivity.
Defined.

(** ** The data operations on a connected process *)

(** X10.  On a connected process, a request of [/aggregate], [/count],
    [/distinct], [/insertOne] or [/insertMany] with a body, whose
    [collection] (and [field]) the log line of the handler can print, makes
    exactly one driver call, the one of its route with the arguments read
    off the body ([query] defaulting to the empty filter when it is
    undefined), and no [connect()].  The driver's error is the 500.  The
    driver's value is the body of the 200, wrapped as [count] for [/count],
    unless the log line after the call throws on it: then the answer is the
    500 of that [TypeError], after the call was made.  When the first log
    line cannot print [collection] or [field], the handler makes no driver
    call and answers the 500 of that [TypeError]. *)
Theorem data_operation_passes_through D cfg r o s :
  operation_of r = Some o ->
  mongoClient s <> None -> db s <> None ->
  nullish (body_of r) = false ->
  exists new,
    fst (Proxy.handle D cfg r s) = mkState (mongoClient s) (db s) (new ++ events s) /\
    count_events is_connect new = 0 /\
    if existsb unprintable (logged_before r) then
      op_outcomes new = [] /\
      snd (Proxy.handle D cfg r s)
      = Ok (mkResponse 500 (failure_body r not_primitive))
    else
      exists out,
        op_outcomes new = [(o, out)] /\
        snd (Proxy.handle D cfg r s) = Ok (response_to r out).
Proof.
  destruct s as [[c |] [d |] t]; simpl; intros Ho Hc Hd Hb; try congruence.
  destruct r as [| | b | b | b | b | b | b]; try discriminate;
    simpl in Ho, Hb; inversion Ho; subst o; simpl;
    unfold_handlers; unfold_monad; unfold push; simpl; rewrite Hb; simpl;
    unfold response_to, logged_after, query_of; simpl;
    repeat (case_step; simpl);
    match goal with
    | |- exists new, (mkState _ _ ?t') = _ /\ _ =>
        let n := added t' t in exists n
    end;
    (split; [reflexivity |]); (split; [reflexivity |]);
    simpl;
    repeat match goal with
           | H : unprintable _ = _ |- _ => rewrite H
           end; simpl;
    try (split; reflexivity);
    eexists; (split; [reflexivity |]); simpl;
    repeat match goal with
           | H : nullish _ = _ |- _ => rewrite H
           | H : unprintable _ = _ |- _ => rewrite H
           end; reflexivity.
Qed.

Lemma data_operation_passes_through_witness :
  let r := Proxy.POST_count (JObj [("collection", JStr "users")]) in
  let s := mkState (Some 0) (Some (0, "Saica")) [] in
  exists new,
    fst (Proxy.handle healthy sample_cfg r s)
    = mkState (Some 0) (Some (0, "Saica")) (new ++ []) /\
    count_events is_connect new = 0 /\
    exists out,
      op_outcomes new = [(OpCountDocuments (JStr "users") (JObj []), out)] /\
      snd (Proxy.handle healthy sample_cfg r s) = Ok (response_to r out).
Proof.
  intros r s.
  apply (data_operation_passes_through healthy sample_cfg r
           (OpCountDocuments (JStr "users") (JObj [])) s);
    try reflexivity; simpl; discriminate.
Defined.

(** X11.  A data operation whose body is null or undefined is answered 500
    with the [TypeError] of the destructuring, without a driver operation;
    but the handler activates the connection first, so the request still
    makes the connection attempt of [connectToMongo], and when that fails
    the 500 carries the connection error instead. *)
Theorem null_body_is_refused_after_activation D cfg r s :
  Proxy.is_data_operation r = true ->
  nullish (body_of r) = true ->
  exists text args,
    Proxy.handle D cfg r s
    = match connectToMongo D cfg s with
      | (s1, Ok _) =>
          (push (EConsole Error text
                   (args (destructure_of_nullish (body_of r) "collection"))) s1,
           Ok (mkResponse 500
                 (failure_body r (destructure_of_nullish (body_of r) "collection"))))
      | (s1, Raise x) =>
          (push (EConsole Error text (args x)) s1,
           Ok (mkResponse 500 (failure_body r x)))
      end.
Proof.
  intros Hr Hb.
  destruct r as [| | b | b | b | b | b | b]; try discriminate; simpl in *.
  - exists "[QUERY] Error:", (fun e => [JStr (message e)]).
    unfold_handlers; unfold_body; rewrite Hb;
      destruct (connectToMongo D cfg s) as [s1 [[] | x]]; reflexivity.
  - exists "[AGGREGATE] Error:", (fun e => [JStr (message e)]).
    unfold_handlers; unfold_body; rewrite Hb;
      destruct (connectToMongo D cfg s) as [s1 [[] | x]]; reflexivity.
  - exists "[COUNT] Error:", (fun e => [JStr (message e)]).
    unfold_handlers; unfold_body; rewrite Hb;
      destruct (connectToMongo D cfg s) as [s1 [[] | x]]; reflexivity.
  - exists "[DISTINCT] Error:", (fun e => [JStr (message e)]).
    unfold_handlers; unfold_body; rewrite Hb;
      destruct (connectToMongo D cfg s) as [s1 [[] | x]]; reflexivity.
  - exists "InsertOne error:", (fun e => [shown e]).
    unfold_handlers; unfold_body; rewrite Hb;
      destruct (connectToMongo D cfg s) as [s1 [[] | x]]; reflexivity.
  - exists "InsertMany error:", (fun e => [shown e]).
    unfold_handlers; unfold_body; rewrite Hb;
      destruct (connectToMongo D cfg s) as [s1 [[] | x]]; reflexivity.
Qed.

Lemma null_body_is_refused_after_activation_witness :
  exists text args,
    Proxy.handle healthy sample_cfg (Proxy.POST_insertOne JNull) initial
    = (push (EConsole Error text
               (args (destructure_of_nullish JNull "collection")))
            (fst (connectToMongo healthy sample_cfg initial)),
       Ok (mkResponse 500
             (JObj [("error",
                     JStr "Cannot destructure property 'collection' of 'req.body' as it is null.")]))).
Proof.
  destruct (null_body_is_refused_after_activation healthy sample_cfg
              (Proxy.POST_insertOne JNull) initial eq_refl eq_refl)
    as (text & args & E).
  exists text, args. rewrite E. reflexivity.
Defined.

(** X12.  The default [options = {}] of [/query] stands for an undefined
    [options] only: with [options] null on a connected process, the read of
    [options.sort] throws after [db.collection], the cursor never reaches
    the driver and the request is answered 500 with that [TypeError].  In
    [src/unnamed/part_000] this is so for a [collection] that the log line
    can print; for one it cannot print the handler throws there first, and
    the 500 carries that [TypeError] instead, again without a driver
    operation. *)
Theorem query_null_options_is_a_500 D cfg b s :
  mongoClient s <> None -> db s <> None ->
  nullish b = false -> get_prop b "options" = JNull ->
  (exists new,
     ServerJs.post_query D cfg b s
     = (mkState (mongoClient s) (db s) (new ++ events s),
        Ok (mkResponse 500 (ServerJs.error_only (read_of_nullish JNull "sort")))) /\
     ops_of new = []) /\
  (exists new,
     Proxy.post_query D cfg b s
     = (mkState (mongoClient s) (db s) (new ++ events s),
        Ok (mkResponse 500
              (Proxy.error_code_details
                 (if unprintable (get_prop b "collection") then not_primitive
                  else read_of_nullish JNull "sort")))) /\
     ops_of new = []).
Proof.
  destruct s as [[c |] [d |] t]; simpl; intros Hc Hd Hb Ho; try congruence.
  unfold Proxy.post_query, ServerJs.post_query. unfold_monad. unfold push. simpl.
  rewrite Hb, Ho. simpl. split.
  - eexists [_]. split; reflexivity.
  - destruct (unprintable (get_prop b "collection")); simpl.
    + eexists [_]. split; reflexivity.
    + eexists [_; _]. split; reflexivity.
Qed.

Lemma query_null_options_is_a_500_witness :
  let b := JObj [("collection", JStr "users"); ("options", JNull)] in
  let s := mkState (Some 0) (Some (0, "Saica")) [] in
  (exists new,
     ServerJs.post_query healthy sample_cfg b s
     = (mkState (Some 0) (Some (0, "Saica")) (new ++ []),
        Ok (mkResponse 500 (ServerJs.error_only (read_of_nullish JNull "sort")))) /\
     ops_of new = []) /\
  (exists new,
     Proxy.post_query healthy sample_cfg b s
     = (mkState (Some 0) (Some (0, "Saica")) (new ++ []),
        Ok (mkResponse 500
              (Proxy.error_code_details (read_of_nullish JNull "sort")))) /\
     ops_of new = []).
Proof.
  intros b s.
  apply (query_null_options_is_a_500 healthy sample_cfg b s);
    try reflexivity; simpl; discriminate.
Defined.

(** ** [/health] on a connected process *)

(** X13.  With [db] set, [/health] pings first and counts [network_tests]
    only after a ping that succeeded.  A ping that fails is the only driver
    call of the request.  A count that fails after a ping that succeeded
    overwrites the ping entry: the response says ping failed, with the
    message of the count error, and has no [testCollection]. *)
Theorem health_probe_order D cfg c d t :
  let s := mkState c (Some d) t in
  let count := OpCountDocuments (JStr "network_tests") JUndef in
  exists new b,
    Proxy.get_health D cfg s = (mkState c (Some d) (new ++ t), Ok (mkResponse 200 b)) /\
    (forall x, run_op D t OpPing = Raise x ->
       op_outcomes new = [(OpPing, Raise x)] /\
       get_prop b "pingError" = JStr (message x)) /\
    (forall v x, run_op D t OpPing = Ok v ->
       run_op D (EOp OpPing (Ok v) :: t) count = Raise x ->
       op_outcomes new = [(count, Raise x); (OpPing, Ok v)] /\
       get_prop b "ping" = JStr "failed" /\
       get_prop b "pingError" = JStr (message x) /\
       get_prop b "status" = JStr "degraded" /\
       get_prop b "testCollection" = JUndef) /\
    (forall v n, run_op D t OpPing = Ok v ->
       run_op D (EOp OpPing (Ok v) :: t) count = Ok n ->
       op_outcomes new = [(count, Ok n); (OpPing, Ok v)] /\
       keys b = ["status"; "connected"; "database"; "timestamp"; "ping";
                 "testCollection"; "documentCount"] /\
       get_prop b "status" = JStr "ok" /\
       get_prop b "ping" = JStr "success" /\
       get_prop b "documentCount" = n).
Proof.
  cbv zeta. unfold Proxy.get_health, Proxy.health_degraded.
  unfold_monad. unfold push. simpl.
  destruct (run_op D t OpPing) as [v | x] eqn:Ep; simpl.
  - destruct (run_op D (EOp OpPing (Ok v) :: t)
                (OpCountDocuments (JStr "network_tests") JUndef))
      as [n | x] eqn:Ec; simpl.
    + eexists [_; _]. eexists. split; [reflexivity |].
      split; [intros ? H; discriminate |].
      split; [intros v' x Hv Hx; inversion Hv; subst v'; rewrite Ec in Hx;
              discriminate |].
      intros v' n' Hv Hn. inversion Hv. subst v'. rewrite Ec in Hn.
      inversion Hn. subst n'. repeat split; reflexivity.
    + eexists [_; _]. eexists. split; [reflexivity |].
      split; [intros ? H; discriminate |].
      split.
      * intros v' x' Hv Hx. inversion Hv. subst v'. rewrite Ec in Hx.
        inversion Hx. subst x'. repeat split; reflexivity.
      * intros v' n' Hv Hn. inversion Hv. subst v'. rewrite Ec in Hn.
        discriminate.
  - eexists [_]. eexists. split; [reflexivity |].
    split; [intros x' Hx; inversion Hx; subst x'; split; reflexivity |].
    split; intros; discriminate.
Qed.

Lemma health_probe_order_witness :
  exists new b,
    Proxy.get_health down sample_cfg (mkState (Some 0) (Some (0, "Saica")) [])
    = (mkState (Some 0) (Some (0, "Saica")) (new ++ []), Ok (mkResponse 200 b)) /\
    op_outcomes new = [(OpPing, Raise unreachable)] /\
    get_prop b "pingError" = JStr (message unreachable).
Proof.
  destruct (health_probe_order down sample_cfg (Some 0) (0, "Saica") [])
    as (new & b & E & Hp & _).
  exists new, b. split; [exact E |]. apply Hp. reflexivity.
Defined.

(** ** More on activation *)

(** X14.  When the constructor of the client throws, [connectToMongo]
    rethrows that error with [mongoClient] still null and without calling
    [connect()]: the next call goes through the guard and constructs
    again. *)
Theorem constructor_failure_is_retried D cfg s e :
  mongoClient s = None ->
  new_throws D (MONGODB_URI cfg) = Some e ->
  exists s1 s2,
    connectToMongo D cfg s = (s1, Raise e) /\
    connectToMongo D cfg s1 = (s2, Raise e) /\
    mongoClient s2 = None /\ db s2 = db s /\
    connect_attempts s2 = connect_attempts s /\
    count_events is_construction (events s2)
    = count_events is_construction (events s) + 2.
Proof.
  destruct s as [c d t]. simpl. intros Hc Hn. subst c.
  eexists. eexists.
  split; [unfold_monad; unfold push; simpl; rewrite Hn; reflexivity |].
  split; [unfold_monad; unfold push; simpl; rewrite Hn; reflexivity |].
  unfold connect_attempts, count_events. simpl.
  repeat split; try reflexivity. lia.
Qed.

Lemma constructor_failure_is_retried_witness :
  let D := mkDriver (fun _ => Some (mkExn "MongoParseError" "Invalid scheme" JUndef))
                    (fun _ => None) (fun _ => None)
                    (fun _ o => Ok (answer o)) (fun _ => None)
                    (fun _ => "") "" in
  exists s1 s2,
    connectToMongo D sample_cfg initial
    = (s1, Raise (mkExn "MongoParseError" "Invalid scheme" JUndef)) /\
    connectToMongo D sample_cfg s1
    = (s2, Raise (mkExn "MongoParseError" "Invalid scheme" JUndef)) /\
    mongoClient s2 = None /\ db s2 = None /\
    connect_attempts s2 = 0 /\
    count_events is_construction (events s2) = 2.
Proof.
  intros D.
  apply (constructor_failure_is_retried D sample_cfg initial
           (mkExn "MongoParseError" "Invalid scheme" JUndef)); reflexivity.
Defined.

(** X15.  [db] is written by a successful activation only.  A
    [connectToMongo] that returns from a state without a client has
    constructed one client, called [connect()] once and set [db] to the
    configured database of that client; one that throws leaves [db] as it
    was. *)
Theorem activation_sets_db D cfg s s1 :
  (mongoClient s = None -> connectToMongo D cfg s = (s1, Ok tt) ->
   mongoClient s1 = Some (clients_created s) /\
   db s1 = Some (clients_created s, DATABASE cfg) /\
   clients_created s1 = clients_created s + 1 /\
   connect_attempts s1 = connect_attempts s + 1) /\
  (forall e, connectToMongo D cfg s = (s1, Raise e) -> db s1 = db s).
Proof.
  destruct s as [c d t]. unfold clients_created, connect_attempts, count_events.
  split.
  - simpl. intros Hc. subst c. exec; intros H; inversion H; subst; simpl.
    repeat split; lia.
  - intros e. exec; intros H; inversion H; subst; reflexivity.
Qed.

Lemma activation_sets_db_witness :
  mongoClient (fst (connectToMongo healthy sample_cfg initial)) = Some 0 /\
  db (fst (connectToMongo healthy sample_cfg initial)) = Some (0, "Saica") /\
  db (fst (connectToMongo down sample_cfg initial)) = None.
Proof.
  destruct (activation_sets_db healthy sample_cfg initial
              (fst (connectToMongo healthy sample_cfg initial)))
    as (Hok & _).
  destruct (Hok eq_refl eq_refl) as (H1 & H2 & _).
  destruct (activation_sets_db down sample_cfg initial
              (fst (connectToMongo down sample_cfg initial)))
    as (_ & Hfail).
  split; [exact H1 |]. split; [exact H2 |].
  apply (Hfail unreachable). reflexivity.
Defined.

(** X16.  Unlike [/health], [/diagnose] activates the connection: the
    handles after the request are the ones [connectToMongo] leaves.  The
    [connection] entry of its body is taken before that, so it shows the
    handles of the state the request started in. *)
Theorem diagnose_activates D cfg s :
  exists s' b,
    Proxy.get_diagnose D cfg s = (s', Ok (mkResponse 200 b)) /\
    mongoClient s' = mongoClient (fst (connectToMongo D cfg s)) /\
    db s' = db (fst (connectToMongo D cfg s)) /\
    get_prop b "connection" =
      JObj [("clientInitialized", JBool (not_null (mongoClient s)));
            ("dbInitialized", JBool (not_null (db s)))].
Proof.
  unfold Proxy.get_diagnose, bind, get, date_now, attempt, res_json, ret.
  assert (Hset : forall u, snd (connectToMongo D cfg s) = Ok u ->
                           mongoClient (fst (connectToMongo D cfg s)) <> None).
  { destruct s as [[c |] d t]; exec; intros u H; try discriminate;
      simpl; discriminate. }
  destruct (connectToMongo D cfg s) as [s1 [[] | e]]; simpl in *.
  - specialize (Hset tt eq_refl).
    assert (S3 : settled (Proxy.test_listCollections D))
      by (unfold Proxy.test_listCollections; settle).
    assert (S4 : settled (Proxy.test_networkTests D))
      by (unfold Proxy.test_networkTests; settle).
    assert (S2' : settled (Proxy.test_ping D))
      by (unfold Proxy.test_ping; settle).
    destruct (S2' s1 Hset) as (A2 & B2).
    destruct (Proxy.test_ping D s1) as [s2 r2]. simpl in *.
    assert (H2 : mongoClient s2 <> None) by congruence.
    destruct (S3 s2 H2) as (A3 & B3).
    destruct (Proxy.test_listCollections D s2) as [s3 r3]. simpl in *.
    assert (H3 : mongoClient s3 <> None) by congruence.
    destruct (S4 s3 H3) as (A4 & B4).
    destruct (Proxy.test_networkTests D s3) as [s4 r4]. simpl in *.
    eexists. eexists. split; [reflexivity |].
    split; [congruence |]. split; [congruence | reflexivity].
  - eexists. eexists. split; [reflexivity |].
    split; [reflexivity |]. split; reflexivity.
Qed.

(** ** The host shown by [/diagnose] *)

Lemma append_cons_assoc cur c a :
  ((cur ++ String c "") ++ a)%string = (cur ++ String c a)%string.
Proof. induction cur as [| c0 cur IH]; simpl; [reflexivity | rewrite IH; reflexivity]. Qed.

Lemma append_empty_r a : (a ++ "")%string = a.
Proof. induction a as [| c a IH]; simpl; [reflexivity | rewrite IH; reflexivity]. Qed.

Lemma hd_split_acc sep s : forall cur,
  hd "" (split_acc sep cur s) = (cur ++ before sep s)%string.
Proof.
  induction s as [| c s IH]; intros cur; simpl.
  - rewrite append_empty_r. reflexivity.
  - destruct (Ascii.eqb c sep); simpl.
    + rewrite append_empty_r. reflexivity.
    + rewrite IH. apply append_cons_assoc.
Qed.

Lemma split_acc_nonempty sep s : forall cur, split_acc sep cur s <> [].
Proof.
  induction s as [| c s IH]; intros cur; simpl; [discriminate |].
  destruct (Ascii.eqb c sep); [discriminate | apply IH].
Qed.

Lemma split_acc_at sep a b : forall cur,
  occurs sep a = false ->
  split_acc sep cur (a ++ String sep b)
  = (cur ++ a)%string :: split_acc sep "" b.
Proof.
  induction a as [| c a IH]; intros cur Ha; simpl in *.
  - rewrite Ascii.eqb_refl, append_empty_r. reflexivity.
  - apply orb_false_elim in Ha. destruct Ha as [Hc Ha]. rewrite Hc.
    rewrite (IH _ Ha), append_cons_assoc. reflexivity.
Qed.

Lemma split_acc_none sep a : forall cur,
  occurs sep a = false -> split_acc sep cur a = [(cur ++ a)%string].
Proof.
  induction a as [| c a IH]; intros cur Ha; simpl in *.
  - rewrite append_empty_r. reflexivity.
  - apply orb_false_elim in Ha. destruct Ha as [Hc Ha]. rewrite Hc.
    rewrite (IH _ Ha), append_cons_assoc. reflexivity.
Qed.

Lemma before_at c a b : occurs c a = false -> before c (a ++ String c b) = a.
Proof.
  induction a as [| c0 a IH]; simpl; intros Ha.
  - rewrite Ascii.eqb_refl. reflexivity.
  - apply orb_false_elim in Ha. destruct Ha as [Hc Ha]. rewrite Hc, (IH Ha).
    reflexivity.
Qed.

Lemma before_skip c c' a b :
  occurs c a = false -> Ascii.eqb c' c = false ->
  before c (a ++ String c' b) = (a ++ String c' (before c b))%string.
Proof.
  induction a as [| c0 a IH]; simpl; intros Ha Hc'.
  - rewrite Hc'. reflexivity.
  - apply orb_false_elim in Ha. destruct Ha as [Hc Ha]. rewrite Hc, (IH Ha Hc').
    reflexivity.
Qed.

Lemma before_none c a : occurs c a = false -> before c a = a.
Proof.
  induction a as [| c0 a IH]; simpl; intros Ha; [reflexivity |].
  apply orb_false_elim in Ha. destruct Ha as [Hc Ha]. rewrite Hc, (IH Ha).
  reflexivity.
Qed.

Lemma nonempty_at pre c tail : (pre ++ String c tail =? "")%string = false.
Proof. destruct pre; reflexivity. Qed.

(** X17.  The [mongoUriHost] of [/diagnose] is cut out of the URI at the
    first [@]: for a URI with no [@] before it, the field is the text from
    there to the next [@] or [/], or to the end.  That is the host when the
    credentials hold no [@]; with an [@] in the password it is the piece of
    the password between the two.  A URI without [@] gives undefined. *)
Theorem mongoUriHost_is_cut_at_the_first_at pre tail u :
  (occurs "@" pre = false ->
   Proxy.mongoUriHost (Some (pre ++ String "@" tail)%string)
   = JStr (before "/" (before "@" tail))) /\
  (forall host rest,
     occurs "@" pre = false -> occurs "@" host = false -> occurs "/" host = false ->
     Proxy.mongoUriHost (Some (pre ++ String "@" (host ++ String "/" rest))%string)
     = JStr host /\
     Proxy.mongoUriHost (Some (pre ++ String "@" host)%string) = JStr host /\
     Proxy.mongoUriHost (Some (pre ++ String "@" (host ++ String "@" rest))%string)
     = JStr host) /\
  (u <> "" -> occurs "@" u = false -> Proxy.mongoUriHost (Some u) = JUndef).
Proof.
  assert (Hcut : forall t, occurs "@" pre = false ->
            Proxy.mongoUriHost (Some (pre ++ String "@" t)%string)
            = JStr (before "/" (before "@" t))).
  { intros t Hp. unfold Proxy.mongoUriHost, split. simpl.
    rewrite nonempty_at. simpl. rewrite (split_acc_at "@" pre _ "" Hp). simpl.
    pose proof (hd_split_acc "@" t "") as H.
    destruct (split_acc "@" "" t) as [| x l] eqn:Ex.
    - exfalso. revert Ex. apply split_acc_nonempty.
    - simpl in H. subst x. rewrite hd_split_acc. reflexivity. }
  split; [apply Hcut |]. split.
  - intros host rest Hp Hh Hs. rewrite !Hcut by assumption.
    rewrite (before_skip "@" "/" host rest Hh eq_refl).
    rewrite (before_at "/" host _ Hs).
    rewrite (before_at "@" host rest Hh).
    rewrite (before_none "@" host Hh), (before_none "/" host Hs).
    repeat split; reflexivity.
  - intros Hu Ha. unfold Proxy.mongoUriHost, split. simpl.
    destruct (String.eqb_spec u ""); [contradiction |]. simpl.
    rewrite (split_acc_none "@" u "" Ha). reflexivity.
Qed.

Lemma mongoUriHost_is_cut_at_the_first_at_witness :
  Proxy.mongoUriHost (Some "mongodb+srv://user:pw@cluster0.example.net/Saica?retryWrites=true")
  = JStr "cluster0.example.net" /\
  Proxy.mongoUriHost (Some "mongodb://u:p@ss@host:27017/db") = JStr "ss" /\
  Proxy.mongoUriHost (Some "localhost:27017") = JUndef.
Proof.
  destruct (mongoUriHost_is_cut_at_the_first_at "mongodb+srv://user:pw"
              "cluster0.example.net/Saica?retryWrites=true" "localhost:27017")
    as (H1 & _ & H3).
  destruct (mongoUriHost_is_cut_at_the_first_at "mongodb://u:p"
              "ss@host:27017/db" "x") as (_ & H2 & _).
  split; [apply H1; reflexivity |]. split.
  - apply (H2 "ss" "host:27017/db"); reflexivity.
  - apply H3; [discriminate | reflexivity].
Defined.

(** ** The constants of the script *)

(** X18.  The constants a listening process runs with: [PORT] and
    [DATABASE] are the values of the environment when these are set and not
    empty, as strings, and 3000 and Saica otherwise; [MONGODB_URI] is the
    value of the environment. *)
Theorem main_constants env u :
  env "MONGODB_URI" = Some u -> u <> "" ->
  exists cfg s,
    main env = Listening cfg s /\
    MONGODB_URI cfg = Some u /\
    PORT cfg = match env "PORT" with
               | Some p => if (p =? "")%string then JNum 3000 else JStr p
               | None => JNum 3000
               end /\
    DATABASE cfg = match env "DATABASE" with
                   | Some d => if (d =? "")%string then "Saica" else d
                   | None => "Saica"
                   end.
Proof.
  intros H Hu. unfold main. rewrite H. simpl.
  destruct (String.eqb_spec u ""); [contradiction |]. simpl.
  eexists. eexists. split; [reflexivity |]. simpl. split; [reflexivity |].
  unfold js_or. split.
  - destruct (env "PORT") as [p |]; simpl; [| reflexivity].
    destruct (p =? "")%string; reflexivity.
  - destruct (env "DATABASE") as [d |]; simpl; [| reflexivity].
    destruct (d =? "")%string; reflexivity.
Qed.

Lemma main_constants_witness :
  exists cfg s,
    main (fun k => if (k =? "PORT")%string then Some "8080"
                   else if (k =? "DATABASE")%string then Some ""
                   else Some "mongodb://db.example.net/x")
    = Listening cfg s /\
    PORT cfg = JStr "8080" /\ DATABASE cfg = "Saica".
Proof.
  destruct (main_constants
              (fun k => if (k =? "PORT")%string then Some "8080"
                        else if (k =? "DATABASE")%string then Some ""
                        else Some "mongodb://db.example.net/x")
              "mongodb://db.example.net/x" eq_refl)
    as (cfg & s & E & _ & Hp & Hd); [discriminate |].
  exists cfg, s. split; [exact E |]. split; assumption.
Defined.

(** ** The setup script *)

(** X19.  Without a URL the setup script prints that none was provided and
    exits with status 1 before any [git] command.  With a URL it runs init,
    add, commit, remote add with that URL and push to master, in this
    order, and pushes to main exactly when the push to master failed; no
    failure of [git] stops it: it always ends with its Done lines and exit
    status 0. *)
Theorem setup_script_outcomes g url :
  (exists t,
     Setup.script g "" = (Setup.Echo "❌ No URL provided. Exiting." :: t, 1%Z) /\
     Setup.git_commands (fst (Setup.script g "")) = []) /\
  (url <> "" ->
   exists t pushed,
     Setup.script g url
     = (Setup.Echo "Save this URL - you'll need it for Render deployment!"
          :: Setup.Echo ""
          :: Setup.Echo ("Your proxy is now on GitHub at: " ++ url)%string
          :: Setup.Echo "" :: Setup.Echo "✅ Done!" :: Setup.Echo "" :: t, 0%Z) /\
     In (Setup.Git ["push"; "-u"; "origin"; "master"] pushed) t /\
     Setup.git_commands (fst (Setup.script g url))
     = [["init"]; ["add"; "."];
        ["commit"; "-m"; "Initial commit: MongoDB proxy for Cloudflare Workers"];
        ["remote"; "add"; "origin"; url];
        ["push"; "-u"; "origin"; "master"]]
       ++ (if (pushed =? 0)%Z then [] else [["push"; "-u"; "origin"; "main"]])).
Proof.
  split; [eexists; split; reflexivity |].
  intros Hu. unfold Setup.script. destruct (String.eqb_spec url ""); [contradiction |].
  unfold Setup.git, Setup.echo, Setup.git_commands. simpl.
  match goal with
  | |- context [if (?p =? 0)%Z then _ else _] =>
      remember p as pushed eqn:Hp
  end.
  destruct (pushed =? 0)%Z eqn:Ep; eexists; exists pushed; rewrite Ep; simpl;
    (split; [reflexivity |]); split; simpl; auto 10.
Qed.

Lemma setup_script_outcomes_witness :
  exists t pushed,
    Setup.script (fun _ _ => 128%Z) "https://github.com/me/qcw-mongo-proxy"
    = (Setup.Echo "Save this URL - you'll need it for Render deployment!"
         :: Setup.Echo ""
         :: Setup.Echo "Your proxy is now on GitHub at: https://github.com/me/qcw-mongo-proxy"
         :: Setup.Echo "" :: Setup.Echo "✅ Done!" :: Setup.Echo "" :: t, 0%Z) /\
    In (Setup.Git ["push"; "-u"; "origin"; "master"] pushed) t /\
    Setup.git_commands
      (fst (Setup.script (fun _ _ => 128%Z) "https://github.com/me/qcw-mongo-proxy"))
    = [["init"]; ["add"; "."];
       ["commit"; "-m"; "Initial commit: MongoDB proxy for Cloudflare Workers"];
       ["remote"; "add"; "origin"; "https://github.com/me/qcw-mongo-proxy"];
       ["push"; "-u"; "origin"; "master"]]
      ++ (if (pushed =? 0)%Z then [] else [["push"; "-u"; "origin"; "main"]]).
Proof.
  apply (proj2 (setup_script_outcomes (fun _ _ => 128%Z)
                  "https://github.com/me/qcw-mongo-proxy")).
  discriminate.
Defined.
